(** * har-to-jmeter: the request handler of the Supabase edge function

    A shallow embedding of [supabase/functions/har-to-jmeter/index.ts]
    and the properties of it that the specification states.

    Conventions of the embedding.
    - A JavaScript string is the list of its UTF-16 code units
      ([jsstring]); [lit] injects an ASCII literal of the source.
    - A JavaScript [number] is an IEEE 754 binary64 value ([float]).
    - The platform (environment variables, [JSON.parse], [JSON.stringify],
      [new URL], [fetch], the stack attached to an [Error]) is a record
      [Platform] that the handler receives explicitly.
    - [console.log], [console.error] and [fetch] are recorded, in order,
      in a trace of [event]s threaded through a small exception monad.
    - The body of a [Response], and the body of an outbound request, is
      kept as the value handed to [JSON.stringify], not as its
      serialisation.
    - The request body and the HAR document are taken at the types that
      the source declares for them ([HarFile], [LoadConfig], ...); a body
      or a HAR string that does not decode is the exception thrown by
      [req.json], by [JSON.parse] or by the reads of [log.entries] on the
      parsed value.  An object given as [harContent] is a HAR document:
      objects without [log.entries] are not represented.  The reply of the provider is an untyped
      JSON value, since the handler probes it with optional chaining. *)

From Stdlib Require Import List NArith ZArith Bool String Ascii Lia.
From Stdlib Require Import Floats Uint63 DecimalString.
Import ListNotations.

Set Warnings "-register-all".

(** ** JavaScript strings *)

Definition code_unit := N.
Definition jsstring := list code_unit.

Definition lit (s : string) : jsstring :=
  map N_of_ascii (list_ascii_of_string s).

Fixpoint str_eqb (a b : jsstring) : bool :=
  match a, b with
  | [], [] => true
  | x :: a', y :: b' => N.eqb x y && str_eqb a' b'
  | _, _ => false
  end.

(** [strip_prefix p s] is the rest of [s] after its prefix [p], when [s]
    starts with [p]. *)
Fixpoint strip_prefix (p s : jsstring) : option jsstring :=
  match p with
  | [] => Some s
  | x :: p' =>
      match s with
      | y :: s' => if N.eqb x y then strip_prefix p' s' else None
      | [] => None
      end
  end.

Definition starts_with (p s : jsstring) : bool :=
  match strip_prefix p s with Some _ => true | None => false end.

(** [String.prototype.includes]. *)
Fixpoint includes (s sub : jsstring) : bool :=
  starts_with sub s ||
  match s with
  | [] => false
  | _ :: s' => includes s' sub
  end.

(** Decimal rendering of an array length inside a template literal. *)
Definition nat_to_jsstring (n : nat) : jsstring :=
  lit (NilZero.string_of_uint (Nat.to_uint n)).

(** ** Regular expressions

    The fragment of ECMAScript regular expressions that the two literals
    of the source use, with the backtracking semantics of the language:
    [run r st] lists, in the order in which the matcher tries them, the
    states in which a match of [r] started in [st] can end. *)

(** The white space of [\s]: WhiteSpace and LineTerminator of ECMA-262. *)
Definition is_space (c : code_unit) : bool :=
  match c with
  | 9 | 10 | 11 | 12 | 13 | 32 | 160 => true
  | 5760 | 8232 | 8233 | 8239 | 8287 | 12288 | 65279 => true
  | _ => (8192 <=? c) && (c <=? 8202)
  end%N.

Inductive charclass :=
| CSpace    (* \s *)
| CAny.     (* [\s\S] *)

Definition in_class (c : charclass) (x : code_unit) : bool :=
  match c with
  | CSpace => is_space x
  | CAny => is_space x || negb (is_space x)
  end.

Inductive regex :=
| Lit (l : jsstring)
| Opt (r : regex)            (* (?:r)?  greedy *)
| Star (c : charclass)       (* c*      greedy *)
| StarLazy (c : charclass)   (* c*?     lazy *)
| Group (r : regex)          (* (r)     capture group 1 *)
| Seq (r1 r2 : regex).

Record mstate := MState { rest : jsstring; cap1 : option jsstring }.

(** The part of [s] consumed when the matcher has moved from [s] to its
    suffix [s']. *)
Definition consumed (s s' : jsstring) : jsstring :=
  firstn (List.length s - List.length s') s.

(** Greedy iteration: the longest run first, then shorter ones. *)
Fixpoint star_greedy (c : charclass) (s : jsstring) : list jsstring :=
  match s with
  | x :: s' => if in_class c x then star_greedy c s' ++ [s] else [s]
  | [] => [[]]
  end.

(** Lazy iteration: the empty run first, then longer ones. *)
Fixpoint star_lazy (c : charclass) (s : jsstring) : list jsstring :=
  s :: match s with
       | x :: s' => if in_class c x then star_lazy c s' else []
       | [] => []
       end.

Fixpoint run (r : regex) (st : mstate) : list mstate :=
  match r with
  | Lit l =>
      match strip_prefix l (rest st) with
      | Some s' => [MState s' (cap1 st)]
      | None => []
      end
  | Opt r' => run r' st ++ [st]
  | Star c => map (fun s' => MState s' (cap1 st)) (star_greedy c (rest st))
  | StarLazy c => map (fun s' => MState s' (cap1 st)) (star_lazy c (rest st))
  | Group r' =>
      map (fun st' => MState (rest st') (Some (consumed (rest st) (rest st'))))
          (run r' st)
  | Seq r1 r2 => flat_map (run r2) (run r1 st)
  end.

(** The array returned by [String.prototype.match] for a regular
    expression without the [g] flag: element 0 is the matched text,
    element 1 the capture ([None] is [undefined]). *)
Record match_array := MatchArray { m0 : jsstring; m1 : option jsstring }.

(** The leftmost start at which [r] matches, with the first way of
    matching there. *)
Fixpoint str_match (s : jsstring) (r : regex) : option match_array :=
  match run r (MState s None) with
  | st :: _ => Some (MatchArray (consumed s (rest st)) (cap1 st))
  | [] =>
      match s with
      | [] => None
      | _ :: s' => str_match s' r
      end
  end.

(** ** Extraction of the XML from the provider's text (lines 160-165 and
    172-177, the same statements in both branches) *)

Definition fence : jsstring := lit "```".
Definition xml_tag : jsstring := lit "xml".
Definition prolog : jsstring := lit "<?xml".
Definition closing_tag : jsstring := lit "</jmeterTestPlan>".

(** [/```(?:xml)?\s*([\s\S]*?)\s*```/] *)
Definition re_fenced : regex :=
  Seq (Lit fence)
  (Seq (Opt (Lit xml_tag))
  (Seq (Star CSpace)
  (Seq (Group (StarLazy CAny))
  (Seq (Star CSpace)
       (Lit fence))))).

(** [/<\?xml[\s\S]*<\/jmeterTestPlan>/] *)
Definition re_prolog : regex :=
  Seq (Lit prolog) (Seq (Star CAny) (Lit closing_tag)).

(** [a || b] on values that are [null] or an object. *)
Definition or_else {A} (a b : option A) : option A :=
  match a with Some _ => a | None => b end.

(** [m[1] || m[0]]: an [undefined] or empty capture is falsy. *)
Definition capture_or_whole (m : match_array) : jsstring :=
  match m1 m with
  | Some (x :: c) => x :: c
  | _ => m0 m
  end.

Definition jmx_from_text (aiText : jsstring) : jsstring :=
  let xmlMatch :=
    or_else (str_match aiText re_fenced) (str_match aiText re_prolog) in
  match xmlMatch with
  | Some m => capture_or_whole m
  | None => aiText
  end.

(** ** JSON values, as [JSON.parse] and [Response.json] return them *)

Definition number := float.

Inductive json :=
| JNull
| JBool (b : bool)
| JNum (x : number)
| JStr (s : jsstring)
| JArr (l : list json)
| JObj (fields : list (jsstring * json)).

(** A value read out of a JSON value; [None] is [undefined]. *)
Definition value := option json.

Inductive key :=
| Name (s : jsstring)
| Index (n : nat).

Fixpoint assoc (k : jsstring) (fields : list (jsstring * json)) : value :=
  match fields with
  | [] => None
  | (k', v) :: fields' => if str_eqb k k' then Some v else assoc k fields'
  end.

(** [v[k]] for a [v] that is neither [undefined] nor [null], for the
    property names that the handler reads ([candidates], [content],
    [parts], [text], [choices], [message], [0]): none of them is a
    property of an array, a string, a number or a boolean other than an
    element index. *)
Definition get (v : json) (k : key) : value :=
  match v, k with
  | JObj fs, Name s => assoc s fs
  | JObj fs, Index n => assoc (nat_to_jsstring n) fs
  | JArr l, Index n => nth_error l n
  | JStr s, Index n => option_map (fun c => JStr [c]) (nth_error s n)
  | _, _ => None
  end.

(** [v?.k] and [v?.[k]]. *)
Definition opt_get (v : value) (k : key) : value :=
  match v with
  | None | Some JNull => None
  | Some j => get j k
  end.

(** The truthiness of a condition. *)
Definition truthy (v : value) : bool :=
  match v with
  | None | Some JNull => false
  | Some (JBool b) => b
  | Some (JNum x) => negb (PrimFloat.eqb x 0 || PrimFloat.is_nan x)
  | Some (JStr s) => match s with [] => false | _ => true end
  | Some (JArr _) | Some (JObj _) => true
  end.

(** ** The data model (lines 11-41) *)

Record LoadConfig := {
  threadCount : number;
  rampUpTime : number;
  duration : number;
  loopCount : number
}.

Record NameValue := { name : jsstring; value_ : jsstring }.

Record PostData := { mimeType : jsstring; text : jsstring }.

Record HarRequest := {
  method : jsstring;
  url : jsstring;
  headers : list NameValue;
  queryString : list NameValue;
  postData : option PostData
}.

Record HarResponse := {
  status : number;
  response_headers : list NameValue
}.

Record HarEntry := {
  request : HarRequest;
  response : HarResponse;
  time : number;
  startedDateTime : jsstring
}.

Record HarLog := { entries : list HarEntry }.

Record HarFile := { log : HarLog }.

(** ** Exceptions, events and the platform *)

Record exn := { message : jsstring; stack : jsstring }.

(** The two faults of the engine that the handler can meet on a provider
    reply: reading a property of [null], and calling [match] on a value
    that has no such method. *)
Inductive type_fault :=
| ReadPropertyOfNull (k : key)
| NotAFunction (what : jsstring).

Record FetchRequest := {
  fetch_url : jsstring;
  fetch_method : jsstring;
  fetch_headers : list (jsstring * jsstring);
  fetch_body : json             (* the value given to JSON.stringify *)
}.

Record ProviderResponse := {
  http_status : Z;
  statusText : jsstring;
  body_text : jsstring
}.

(** [Response.ok]: the status is in the range 200-299. *)
Definition ok (r : ProviderResponse) : bool :=
  (200 <=? http_status r)%Z && (http_status r <=? 299)%Z.

Record Platform := {
  env_get : jsstring -> option jsstring;           (* Deno.env.get *)
  JSON_parse_har : jsstring -> exn + HarFile;      (* lines 54-57, see below *)
  JSON_stringify_har : HarFile -> jsstring;        (* JSON.stringify(_, null, 2) *)
  JSON_parse : jsstring -> exn + json;             (* Response.json, line 153 *)
  URL_hostname : jsstring -> exn + jsstring;       (* new URL(_).hostname *)
  fetch : FetchRequest -> exn + ProviderResponse;
  stack_trace : jsstring -> jsstring;              (* stack of new Error(_) *)
  raise_TypeError : type_fault -> exn
}.

Inductive logarg :=
| LStr (s : jsstring)
| LExn (e : exn).

Inductive event :=
| ConsoleLog (args : list logarg)
| ConsoleError (args : list logarg)
| Fetch (r : FetchRequest).

(** ** The monad of the handler: exceptions over a trace of events *)

Definition M (A : Type) : Type := list event -> (exn + A) * list event.

Definition ret {A} (a : A) : M A := fun t => (inr a, t).

Definition bind {A B} (m : M A) (k : A -> M B) : M B :=
  fun t =>
    match m t with
    | (inr a, t') => k a t'
    | (inl e, t') => (inl e, t')
    end.

Definition throw {A} (e : exn) : M A := fun t => (inl e, t).

Definition try_catch {A} (m : M A) (h : exn -> M A) : M A :=
  fun t =>
    match m t with
    | (inl e, t') => h e t'
    | r => r
    end.

Definition emit (e : event) : M unit := fun t => (inr tt, t ++ [e]).

Definition lift {A} (r : exn + A) : M A :=
  match r with
  | inl e => throw e
  | inr a => ret a
  end.

Notation "x <- m ;; k" := (bind m (fun x => k))
  (at level 61, m at next level, right associativity).
Notation "m ;;; k" := (bind m (fun _ => k))
  (at level 61, right associativity).

Fixpoint mapM {A B} (f : A -> M B) (l : list A) : M (list B) :=
  match l with
  | [] => ret []
  | a :: l' => b <- f a ;; bs <- mapM f l' ;; ret (b :: bs)
  end.

Definition console_log (args : list logarg) : M unit := emit (ConsoleLog args).
Definition console_error (args : list logarg) : M unit :=
  emit (ConsoleError args).

(** ** The HTTP interface of the handler *)

Inductive HarContent :=
| HarString (s : jsstring)     (* typeof harContent === 'string' *)
| HarObject (h : HarFile).

Record RequestBody := {
  harContent : HarContent;
  loadConfig : option LoadConfig;
  testPlanName : option jsstring;
  aiProvider : option jsstring
}.

Record Request := {
  req_method : jsstring;
  req_json : exn + RequestBody     (* the outcome of req.json() *)
}.

Record Metadata := {
  provider : jsstring;
  generatedByAI : bool;
  meta_testPlanName : jsstring
}.

Record Summary := {
  totalRequests : nat;
  uniqueDomains : list jsstring;
  methodsUsed : list jsstring;
  avgResponseTime : number
}.

Inductive ResponseBody :=
| BodyNull
| BodySuccess (jmxContent : jsstring) (metadata : Metadata) (summary : Summary)
| BodyError (error : jsstring) (error_stack : jsstring).

Record Response := {
  resp_status : Z;
  resp_headers : list (jsstring * jsstring);
  resp_body : ResponseBody
}.

(** ** The handler *)

(** Lines 6-9. *)
Definition corsHeaders : list (jsstring * jsstring) :=
  [ (lit "Access-Control-Allow-Origin", lit "*");
    (lit "Access-Control-Allow-Headers",
     lit "authorization, x-client-info, apikey, content-type") ].

(** [{ ...corsHeaders, 'Content-Type': 'application/json' }] *)
Definition jsonHeaders : list (jsstring * jsstring) :=
  corsHeaders ++ [ (lit "Content-Type", lit "application/json") ].

(** The fixed part of the template literal of lines 60-98. *)
Definition prompt_template : jsstring := lit
"You are an expert in Apache JMeter test plan creation.  
Your task is to generate a complete Apache JMeter (.jmx) file based on the provided HAR file (HTTP Archive).  

### Requirements:  
1. Parse the HAR file and extract:  
   - All HTTP requests (method, URL, headers, body, query params, cookies).  
   - Request order and sequence should be preserved as in the HAR file.  
   - Response payloads that may contain dynamic values (IDs, tokens).  

2. Create a JMeter Test Plan (.jmx) with the following:  
   - Thread Group with configurable threads, ramp-up, and loop count.  
   - HTTP Request Samplers for every request from HAR.  
   - Group requests by domain or sequence for readability.  
   - Add `HTTP Header Manager` for common headers (Authorization, Content-Type, User-Agent, etc.).  
   - Add `CSV Data Set Config` to externalize dynamic values (e.g., user IDs, emails, tokens).  
   - Replace hardcoded parameters with variables `${varName}`.  

3. Correlation and Dynamic Data Handling:  
   - Use `JSON Extractor` or `Regular Expression Extractor` to capture response values (auth token, IDs, session keys).  
   - Replace dependent requests with extracted variables.  
   - If HAR contains repeated values (like auth tokens), store them in variables.  

4. Enhancements:  
   - Insert default test data where needed (if request body is empty or HAR doesn't provide enough).  
   - Add a `View Results Tree` listener for debugging.  
   - Ensure the JMX is well-formed XML and directly runnable in JMeter.  

### Output:  
- Provide the final JMX file content as valid XML inside a code block.  
- Do not summarize, only return the JMX file.  
- Ensure all nodes (`TestPlan`, `ThreadGroup`, `HTTPSamplerProxy`, `HeaderManager`, etc.) follow correct JMeter XML structure.  

### Input:  
HAR file content (JSON format) will be provided.  

### Task:  
Generate the complete JMX file according to the above rules.

### HAR file content:
".

(** [[...new Set(xs)]]: the distinct elements, in the order of their first
    occurrence. *)
Definition mem (x : jsstring) (l : list jsstring) : bool :=
  existsb (str_eqb x) l.

Definition Set_add (acc : list jsstring) (x : jsstring) : list jsstring :=
  if mem x acc then acc else acc ++ [x].

Definition distinct (xs : list jsstring) : list jsstring :=
  fold_left Set_add xs [].

(** [entries.length] as a number. *)
Definition number_of_nat (n : nat) : number :=
  PrimFloat.of_uint63 (Uint63.of_Z (Z.of_nat n)).

(** Line 203. *)
Definition average (es : list HarEntry) : number :=
  (fold_left (fun sum e => sum + time e) es 0
   / number_of_nat (List.length es))%float.

(** [!key] for the value of an environment variable. *)
Definition missing (k : option jsstring) : bool :=
  match k with
  | None | Some [] => true
  | Some _ => false
  end.

(** [${key}] inside a template literal. *)
Definition interpolate (k : option jsstring) : jsstring :=
  match k with
  | Some s => s
  | None => lit "undefined"
  end.

Definition google : jsstring := lit "google".

(** A destructuring default: it replaces [undefined] only. *)
Definition default (v : option jsstring) (d : jsstring) : jsstring :=
  match v with
  | Some s => s
  | None => d
  end.

(** Line 49: [aiProvider = 'openai']. *)
Definition selected (b : RequestBody) : jsstring :=
  default (aiProvider b) (lit "openai").

Section Handler.

Variable P : Platform.

Definition new_Error (msg : jsstring) : exn :=
  {| message := msg; stack := stack_trace P msg |}.

(** Line 4. *)
Definition openAIApiKey : option jsstring := env_get P (lit "OPENAI_API_KEY").

(** What the rest of the handler keeps of lines 49-99. *)
Record Context := {
  ctx_provider : jsstring;
  ctx_testPlanName : jsstring;
  ctx_entries : list HarEntry;
  jmxPrompt : jsstring
}.

(** Lines 54-57: the HAR document with its entries.  A string goes
    through [JSON.parse]; [JSON_parse_har] gives the document that the
    string parses to or the exception that stops the handler before the
    log line of line 57: the one of [JSON.parse], or the TypeError of the
    reads of [harData.log.entries] and [entries.length] on a parsed value
    that has no [log] or no [entries]. *)
Definition decode_har (harContent : HarContent) : exn + HarFile :=
  match harContent with
  | HarString s => JSON_parse_har P s
  | HarObject h => inr h
  end.

(** Lines 49-99: the body, the HAR data and the prompt. *)
Definition prepare (req : Request) : M Context :=
  b <- lift (req_json req) ;;
  let testPlanName := default (testPlanName b) (lit "HAR Performance Test") in
  let aiProvider := selected b in
  console_log [LStr (lit "Processing HAR file with OpenAI...")] ;;;
  harData <- lift (decode_har (harContent b)) ;;
  let entries := entries (log harData) in
  console_log [LStr (lit "Found " ++ nat_to_jsstring (List.length entries)
                     ++ lit " HTTP requests in HAR file")] ;;;
  ret {| ctx_provider := aiProvider;
         ctx_testPlanName := testPlanName;
         ctx_entries := entries;
         jmxPrompt := prompt_template ++ JSON_stringify_har P harData |}.

Definition do_fetch (r : FetchRequest) : M ProviderResponse :=
  emit (Fetch r) ;;; lift (fetch P r).

(** Lines 101-143: the call of the selected provider. *)
Definition call_provider (aiProvider jmxPrompt : jsstring)
  : M ProviderResponse :=
  if str_eqb aiProvider google then
    let googleAIApiKey := env_get P (lit "GOOGLE_AI_API_KEY") in
    if missing googleAIApiKey then
      throw (new_Error (lit "Google AI API key not configured"))
    else
      do_fetch
          {| fetch_url :=
               lit "https://generativelanguage.googleapis.com/v1beta/models/gemini-1.5-flash:generateContent?key="
               ++ interpolate googleAIApiKey;
             fetch_method := lit "POST";
             fetch_headers := [ (lit "Content-Type", lit "application/json") ];
             fetch_body :=
               JObj [ (lit "contents",
                 JArr [ JObj [ (lit "parts",
                   JArr [ JObj [ (lit "text", JStr jmxPrompt) ] ]) ] ]) ] |}
  else
    if missing openAIApiKey then
      throw (new_Error (lit "OpenAI API key not configured"))
    else
      do_fetch
          {| fetch_url := lit "https://api.openai.com/v1/chat/completions";
             fetch_method := lit "POST";
             fetch_headers :=
               [ (lit "Authorization", lit "Bearer " ++ interpolate openAIApiKey);
                 (lit "Content-Type", lit "application/json") ];
             fetch_body :=
               JObj [ (lit "model", JStr (lit "gpt-5-2025-08-07"));
                      (lit "messages",
                       JArr [ JObj [ (lit "role", JStr (lit "system"));
                                     (lit "content", JStr (lit
"You are an expert JMeter test plan generator. Generate only valid JMeter XML files based on HAR file data.")) ];
                              JObj [ (lit "role", JStr (lit "user"));
                                     (lit "content", JStr jmxPrompt) ] ]);
                      (lit "max_completion_tokens", JNum 8000%float) ] |}.

(** [jmxData.a]: a [TypeError] when [jmxData] is [null]. *)
Definition member (v : json) (k : key) : M value :=
  match v with
  | JNull => throw (raise_TypeError P (ReadPropertyOfNull k))
  | _ => ret (get v k)
  end.

(** Lines 158-165 and 170-177, on the value that the condition before
    them has found truthy (the second read of the same path returns the
    same value). *)
Definition jmx_of_truthy (aiText : value) : M jsstring :=
  match aiText with
  | Some (JStr s) => ret (jmx_from_text s)
  | _ => throw (raise_TypeError P (NotAFunction (lit "aiText.match")))
  end.

Definition path (v : value) (ks : list key) : value :=
  fold_left opt_get ks v.

(** Lines 156-179. *)
Definition extract (aiProvider : jsstring) (jmxData : json) : M jsstring :=
  if str_eqb aiProvider google then
    candidates <- member jmxData (Name (lit "candidates")) ;;
    let t := path candidates
               [Index 0; Name (lit "content"); Name (lit "parts"); Index 0;
                Name (lit "text")] in
    if truthy t then jmx_of_truthy t else ret []
  else
    choices <- member jmxData (Name (lit "choices")) ;;
    let t := path choices
               [Index 0; Name (lit "message"); Name (lit "content")] in
    if truthy t then jmx_of_truthy t else ret [].

(** Lines 145-183: the candidate artifact [jmxContent]. *)
Definition read_jmx (aiProvider : jsstring) (r : ProviderResponse)
  : M jsstring :=
  try_catch
    (if negb (ok r) then
       let errorText := body_text r in
       console_error [LStr (aiProvider ++ lit " API error:"); LStr errorText] ;;;
       throw (new_Error (aiProvider ++ lit " API error: " ++ statusText r))
     else
       jmxData <- lift (JSON_parse P (body_text r)) ;;
       console_log [LStr (aiProvider ++ lit " JMX Generation Response received")] ;;;
       extract aiProvider jmxData)
    (fun error =>
       console_error [LStr (lit "Error generating JMX with " ++ aiProvider ++ lit ":");
                      LExn error] ;;;
       throw (new_Error (lit "Failed to generate JMX file using AI: "
                         ++ message error))).

Definition root_marker : jsstring := lit "<jmeterTestPlan".

(** Line 186: [!jmxContent || !jmxContent.includes('<jmeterTestPlan')]. *)
Definition invalid_jmx (jmxContent : jsstring) : bool :=
  match jmxContent with [] => true | _ => false end
  || negb (includes jmxContent root_marker).

(** Lines 185-207: validation, summary and the successful response. *)
Definition respond (c : Context) (jmxContent : jsstring) : M Response :=
  if invalid_jmx jmxContent then
    throw (new_Error (lit "AI did not generate valid JMeter XML content"))
  else
    console_log [LStr (lit "JMeter XML generated successfully")] ;;;
    hosts <- mapM (fun e => lift (URL_hostname P (url (request e))))
                  (ctx_entries c) ;;
    ret {| resp_status := 200%Z;
           resp_headers := jsonHeaders;
           resp_body :=
             BodySuccess jmxContent
               {| provider := if str_eqb (ctx_provider c) google
                              then lit "Google AI Studio" else lit "OpenAI";
                  generatedByAI := true;
                  meta_testPlanName := ctx_testPlanName c |}
               {| totalRequests := List.length (ctx_entries c);
                  uniqueDomains := distinct hosts;
                  methodsUsed :=
                    distinct (map (fun e => method (request e)) (ctx_entries c));
                  avgResponseTime := average (ctx_entries c) |} |}.

(** Lines 49-143: up to the reply of the provider. *)
Definition provider_reply (req : Request) : M (Context * ProviderResponse) :=
  c <- prepare req ;;
  r <- call_provider (ctx_provider c) (jmxPrompt c) ;;
  ret (c, r).

(** Lines 49-183: up to the candidate artifact. *)
Definition candidate (req : Request) : M (Context * jsstring) :=
  cr <- provider_reply req ;;
  jmxContent <- read_jmx (ctx_provider (fst cr)) (snd cr) ;;
  ret (fst cr, jmxContent).

(** The [try] block of lines 48-208. *)
Definition main (req : Request) : M Response :=
  cj <- candidate req ;;
  respond (fst cj) (snd cj).

(** Lines 209-218. *)
Definition error_response (error : exn) : Response :=
  {| resp_status := 500%Z;
     resp_headers := jsonHeaders;
     resp_body := BodyError (message error) (stack error) |}.

Definition on_error (error : exn) : M Response :=
  console_error [LStr (lit "Error in har-to-jmeter function:"); LExn error] ;;;
  ret (error_response error).

(** Lines 44-46. *)
Definition preflight_response : Response :=
  {| resp_status := 200%Z; resp_headers := corsHeaders; resp_body := BodyNull |}.

(** The function given to [serve] (lines 43-219). *)
Definition handler (req : Request) : M Response :=
  if str_eqb (req_method req) (lit "OPTIONS") then
    ret preflight_response
  else
    try_catch (main req) on_error.

(** An invocation: the handler run from the empty trace.  It always
    returns a response, since [on_error] does not throw. *)
Definition serve (req : Request) : (exn + Response) * list event :=
  handler req [].

End Handler.

(** ** The extraction rule in the words of the specification *)

(** The first occurrence of [sub] in [s]: the text before it and the
    text after it. *)
Fixpoint split_first (sub s : jsstring) : option (jsstring * jsstring) :=
  match strip_prefix sub s with
  | Some r => Some ([], r)
  | None =>
      match s with
      | [] => None
      | x :: s' =>
          match split_first sub s' with
          | Some (b, r) => Some (x :: b, r)
          | None => None
          end
      end
  end.

(** The last occurrence of [sub] in [s]. *)
Fixpoint split_last (sub s : jsstring) : option (jsstring * jsstring) :=
  match s with
  | [] => match strip_prefix sub [] with Some r => Some ([], r) | None => None end
  | x :: s' =>
      match split_last sub s' with
      | Some (b, r) => Some (x :: b, r)
      | None =>
          match strip_prefix sub s with
          | Some r => Some ([], r)
          | None => None
          end
      end
  end.

Fixpoint take_spaces (s : jsstring) : jsstring :=
  match s with
  | x :: s' => if is_space x then x :: take_spaces s' else []
  | [] => []
  end.

Fixpoint skip_spaces (s : jsstring) : jsstring :=
  match s with
  | x :: s' => if is_space x then skip_spaces s' else s
  | [] => []
  end.

(** [s] without its trailing white space. *)
Fixpoint trim_end (s : jsstring) : jsstring :=
  match s with
  | [] => []
  | x :: s' =>
      match trim_end s' with
      | [] => if is_space x then [] else [x]
      | r => x :: r
      end
  end.

Definition strip_opt (p s : jsstring) : jsstring :=
  match strip_prefix p s with
  | Some r => r
  | None => s
  end.

(** The first fenced block of a text that has one: an opening fence,
    directly followed by [xml] or not, and the next fence after it.  The
    result is the interior of the block, without the white space around
    it, and the whole block, fences included. *)
Definition fenced_block (t : jsstring) : option (jsstring * jsstring) :=
  match split_first fence t with
  | None => None
  | Some (_, s1) =>
      let tag := if starts_with xml_tag s1 then xml_tag else [] in
      let s2 := strip_opt xml_tag s1 in
      match split_first fence (skip_spaces s2) with
      | None => None
      | Some (inner, _) =>
          Some (trim_end inner,
                fence ++ tag ++ take_spaces s2 ++ inner ++ fence)
      end
  end.

(** The span from the first XML prolog through the last closing
    [jmeterTestPlan] tag after it. *)
Definition prolog_span (t : jsstring) : option jsstring :=
  match split_first prolog t with
  | None => None
  | Some (_, s1) =>
      match split_last closing_tag s1 with
      | None => None
      | Some (mid, _) => Some (prolog ++ mid ++ closing_tag)
      end
  end.

Definition span_or_text (t : jsstring) : jsstring :=
  match prolog_span t with
  | Some sp => sp
  | None => t
  end.

(** The rule as the specification states it. *)
Definition stated_rule (t : jsstring) : jsstring :=
  match fenced_block t with
  | Some (interior, _) => interior
  | None => span_or_text t
  end.

(** The rule that the handler follows: an empty interior is replaced by
    the whole block. *)
Definition extraction_rule (t : jsstring) : jsstring :=
  match fenced_block t with
  | Some ([], block) => block
  | Some (interior, _) => interior
  | None => span_or_text t
  end.

(** The search that the lazy group and the closing [\s*```] perform
    together: the shortest capture after which white space and a fence
    follow; the result is that capture and the text after the fence. *)
Fixpoint find_close (s : jsstring) : option (jsstring * jsstring) :=
  match strip_prefix fence (skip_spaces s) with
  | Some r => Some ([], r)
  | None =>
      match s with
      | [] => None
      | x :: s' =>
          match find_close s' with
          | Some (c, r) => Some (x :: c, r)
          | None => None
          end
      end
  end.

(** ** Notions of the specification about an invocation *)

(** The context that lines 49-99 build from a decoded body and HAR
    document. *)
Definition context_of (P : Platform) (b : RequestBody) (har : HarFile)
  : Context :=
  {| ctx_provider := selected b;
     ctx_testPlanName := default (testPlanName b) (lit "HAR Performance Test");
     ctx_entries := entries (log har);
     jmxPrompt := prompt_template ++ JSON_stringify_har P har |}.

(** The request [req] with its load configuration replaced by [lc]. *)
Definition with_loadConfig (lc : option LoadConfig) (req : Request) : Request :=
  {| req_method := req_method req;
     req_json :=
       match req_json req with
       | inl e => inl e
       | inr b => inr {| harContent := harContent b;
                         loadConfig := lc;
                         testPlanName := testPlanName b;
                         aiProvider := aiProvider b |}
       end |}.

(** The key that the selected provider requires. *)
Definition required_key (P : Platform) (b : RequestBody) : option jsstring :=
  if str_eqb (selected b) google
  then env_get P (lit "GOOGLE_AI_API_KEY")
  else openAIApiKey P.

(** The message of the configuration error of the selected provider. *)
Definition key_message (b : RequestBody) : jsstring :=
  if str_eqb (selected b) google
  then lit "Google AI API key not configured"
  else lit "OpenAI API key not configured".

(** The mean as IEEE 754 defines it, on the specification of binary64
    of the Standard Library ([spec_float], where every operation is the
    exact result rounded to nearest even): the values are added to +0 one
    after the other, and the sum is divided by the binary64 number
    nearest to their count [n]. *)
Definition ieee_mean (xs : list spec_float) (n : nat) : spec_float :=
  SF64div (fold_left SF64add xs (S754_zero false))
          (binary_normalize prec emax (Z.of_nat n) 0 false).

(** The exact value of a finite binary64 number, counted in units of
    2^-1074 (the smallest positive one): an integer. *)
Definition exact (x : number) : option Z :=
  match Prim2SF x with
  | S754_zero _ => Some 0%Z
  | S754_finite s m e => Some (cond_Zopp s (Z.pos m) * 2 ^ (e + 1074))%Z
  | _ => None
  end.

Fixpoint exact_sum (xs : list number) : option Z :=
  match xs with
  | [] => Some 0%Z
  | x :: r =>
      match exact x, exact_sum r with
      | Some a, Some b => Some (a + b)%Z
      | _, _ => None
      end
  end.

(** [avg] is the arithmetic mean of the finite numbers [xs], exactly:
    their count times [avg] is their sum. *)
Definition is_exact_mean (avg : number) (xs : list number) : bool :=
  match exact avg, exact_sum xs with
  | Some a, Some s => (Z.of_nat (List.length xs) * a =? s)%Z
  | _, _ => false
  end.

(** The replies of the two providers that carry the text [t]. *)
Definition google_reply (t : jsstring) : json :=
  JObj [ (lit "candidates",
    JArr [ JObj [ (lit "content",
      JObj [ (lit "parts", JArr [ JObj [ (lit "text", JStr t) ] ]) ]) ] ]) ].

Definition openai_reply (t : jsstring) : json :=
  JObj [ (lit "choices",
    JArr [ JObj [ (lit "message", JObj [ (lit "content", JStr t) ]) ] ]) ].

(** The reply of the provider that [p] selects. *)
Definition reply_for (p t : jsstring) : json :=
  if str_eqb p google then google_reply t else openai_reply t.

(** ** A platform and requests for the examples *)

Definition nl : jsstring := [10%N].

(** What [JSON.parse] throws on [not json]; the text of the message
    depends on the engine. *)
Definition syntax_error : exn :=
  {| message := lit "Unexpected token o in JSON at position 1";
     stack := lit "SyntaxError: Unexpected token o in JSON at position 1" |}.

Definition invalid_url : exn :=
  {| message := lit "Invalid URL"; stack := lit "TypeError: Invalid URL" |}.

Definition type_error : exn :=
  {| message := lit "not a function or a property of null";
     stack := lit "TypeError" |}.

(** The host of [scheme://host/path], enough for the examples. *)
Definition demo_hostname (u : jsstring) : exn + jsstring :=
  match split_first (lit "://") u with
  | None => inl invalid_url
  | Some (_, r) =>
      match split_first (lit "/") r with
      | Some (h, _) => inr h
      | None => inr r
      end
  end.

(** A platform whose environment is [env], whose provider always answers
    [reply], and on which the body of that answer parses to [parsed]. *)
Definition demo_platform (env : jsstring -> option jsstring)
  (reply : ProviderResponse) (parsed : json) : Platform :=
  {| env_get := env;
     JSON_parse_har := fun _ => inl syntax_error;
     JSON_stringify_har := fun _ => lit "{}";
     JSON_parse := fun _ => inr parsed;
     URL_hostname := demo_hostname;
     fetch := fun _ => inr reply;
     stack_trace := fun m => lit "Error: " ++ m;
     raise_TypeError := fun _ => type_error |}.

Definition no_keys : jsstring -> option jsstring := fun _ => None.
Definition all_keys : jsstring -> option jsstring := fun _ => Some (lit "sk-test").

Definition demo_entry (m u : jsstring) (t : number) : HarEntry :=
  {| request := {| method := m; url := u; headers := []; queryString := [];
                   postData := None |};
     response := {| status := 200%float; response_headers := [] |};
     time := t;
     startedDateTime := lit "2024-01-01T00:00:00.000Z" |}.

Definition demo_har : HarFile :=
  {| log := {| entries :=
       [ demo_entry (lit "GET") (lit "https://a.example/x") 10%float;
         demo_entry (lit "POST") (lit "https://b.example/y") 20%float;
         demo_entry (lit "GET") (lit "https://a.example/z") 30%float ] |} |}.

Definition empty_har : HarFile := {| log := {| entries := [] |} |}.

(** Two entries of 2^1023 ms each, and entries of 1 ms and 2^-53 ms. *)
Definition huge_har : HarFile :=
  {| log := {| entries :=
       [ demo_entry (lit "GET") (lit "https://a.example/x") 0x1p1023%float;
         demo_entry (lit "GET") (lit "https://a.example/y") 0x1p1023%float ] |} |}.

Definition tiny_har : HarFile :=
  {| log := {| entries :=
       [ demo_entry (lit "GET") (lit "https://a.example/x") 1%float;
         demo_entry (lit "GET") (lit "https://a.example/y") 0x1p-53%float ] |} |}.

Definition demo_body (hc : HarContent) (p : option jsstring) : RequestBody :=
  {| harContent := hc; loadConfig := None; testPlanName := None;
     aiProvider := p |}.

Definition post (b : RequestBody) : Request :=
  {| req_method := lit "POST"; req_json := inr b |}.

Definition ok_reply (body : jsstring) : ProviderResponse :=
  {| http_status := 200; statusText := lit "OK"; body_text := body |}.

Definition bad_reply : ProviderResponse :=
  {| http_status := 429; statusText := lit "Too Many Requests";
     body_text := lit "quota exceeded for this key" |}.

Definition good_text : jsstring :=
  fence ++ xml_tag ++ nl
  ++ lit "<jmeterTestPlan version=1.2></jmeterTestPlan>" ++ nl ++ fence.

Definition empty_block : jsstring := fence ++ xml_tag ++ nl ++ fence.

(** ** Outbound calls of a trace and the text of a reply *)

(** The outbound calls recorded in a trace, in order. *)
Fixpoint fetches (tr : list event) : list FetchRequest :=
  match tr with
  | [] => []
  | Fetch r :: tr' => r :: fetches tr'
  | _ :: tr' => fetches tr'
  end.

(** The value that the conditions of lines 157 and 169 test in a reply
    [jmxData] other than [null], for the provider that [p] selects. *)
Definition reply_text (p : jsstring) (jmxData : json) : value :=
  if str_eqb p google then
    path (get jmxData (Name (lit "candidates")))
         [Index 0; Name (lit "content"); Name (lit "parts"); Index 0;
          Name (lit "text")]
  else
    path (get jmxData (Name (lit "choices")))
         [Index 0; Name (lit "message"); Name (lit "content")].

(** The outbound request of lines 109-121 and 128-142, as its receiver
    sees it: a POST with the key [key] and the prompt [prompt], to the
    endpoint of the provider that [p] selects. *)
Definition sent_to (p key prompt : jsstring) (fr : FetchRequest) : Prop :=
  fetch_method fr = lit "POST" /\
  if str_eqb p google then
    fetch_url fr =
      lit "https://generativelanguage.googleapis.com/v1beta/models/gemini-1.5-flash:generateContent?key="
      ++ key /\
    fetch_headers fr = [ (lit "Content-Type", lit "application/json") ] /\
    path (Some (fetch_body fr))
         [Name (lit "contents"); Index 0; Name (lit "parts"); Index 0;
          Name (lit "text")]
    = Some (JStr prompt)
  else
    fetch_url fr = lit "https://api.openai.com/v1/chat/completions" /\
    fetch_headers fr =
      [ (lit "Authorization", lit "Bearer " ++ key);
        (lit "Content-Type", lit "application/json") ] /\
    path (Some (fetch_body fr)) [Name (lit "model")]
    = Some (JStr (lit "gpt-5-2025-08-07")) /\
    path (Some (fetch_body fr))
         [Name (lit "messages"); Index 1; Name (lit "content")]
    = Some (JStr prompt).

(** The two log lines of lines 51 and 57. *)
Definition prepare_log (har : HarFile) : list event :=
  [ ConsoleLog [LStr (lit "Processing HAR file with OpenAI...")];
    ConsoleLog [LStr (lit "Found "
                      ++ nat_to_jsstring (List.length (entries (log har)))
                      ++ lit " HTTP requests in HAR file")] ].

(** Further inputs for the examples. *)
Definition network_error : exn :=
  {| message := lit "error sending request";
     stack := lit "TypeError: error sending request" |}.

(** A platform on which every outbound call fails. *)
Definition offline_platform : Platform :=
  {| env_get := fun _ => Some (lit "sk-test");
     JSON_parse_har := fun _ => inl syntax_error;
     JSON_stringify_har := fun _ => lit "{}";
     JSON_parse := fun _ => inl syntax_error;
     URL_hostname := demo_hostname;
     fetch := fun _ => inl network_error;
     stack_trace := fun m => lit "Error: " ++ m;
     raise_TypeError := fun _ => type_error |}.

Definition empty_keys : jsstring -> option jsstring := fun _ => Some [].

Definition bad_url_har : HarFile :=
  {| log := {| entries :=
       [ demo_entry (lit "GET") (lit "https://a.example/x") 10%float;
         demo_entry (lit "GET") (lit "/relative/path") 20%float ] |} |}.

Definition parts_reply : json :=
  JObj [ (lit "choices",
    JArr [ JObj [ (lit "message",
      JObj [ (lit "content",
        JArr [ JObj [ (lit "type", JStr (lit "text")) ] ]) ]) ] ]) ].

(** ** Strings: basic facts *)

Lemma str_eqb_refl (a : jsstring) : str_eqb a a = true.
Proof.
  induction a as [|x a IH]; simpl; [reflexivity|].
  now rewrite N.eqb_refl, IH.
Qed.

Lemma str_eqb_eq (a b : jsstring) : str_eqb a b = true <-> a = b.
Proof.
  split; [|intros ->; apply str_eqb_refl].
  revert b; induction a as [|x a IH]; intros [|y b]; simpl; try discriminate; auto.
  intros H. apply andb_true_iff in H as [Hx Hab].
  apply N.eqb_eq in Hx. f_equal; auto.
Qed.

Lemma str_eqb_neq (a b : jsstring) : str_eqb a b = false <-> a <> b.
Proof.
  split.
  - intros H E. apply str_eqb_eq in E. congruence.
  - intros H. destruct (str_eqb a b) eqn:E; [|reflexivity].
    apply str_eqb_eq in E. contradiction.
Qed.

Lemma strip_prefix_app (p s : jsstring) : strip_prefix p (p ++ s) = Some s.
Proof.
  induction p as [|x p IH]; simpl; [reflexivity|].
  now rewrite N.eqb_refl.
Qed.

Lemma strip_prefix_inv (p s r : jsstring) :
  strip_prefix p s = Some r -> s = p ++ r.
Proof.
  revert s; induction p as [|x p IH]; intros s; simpl.
  - now intros [= ->].
  - destruct s as [|y s]; [discriminate|].
    destruct (N.eqb_spec x y); [|discriminate].
    intros H. subst y. f_equal. auto.
Qed.

Lemma consumed_app (a r : jsstring) : consumed (a ++ r) r = a.
Proof.
  unfold consumed. rewrite length_app.
  replace (List.length a + List.length r - List.length r) with (List.length a) by lia.
  rewrite firstn_app, firstn_all, Nat.sub_diag. simpl. apply app_nil_r.
Qed.

Lemma app_suffix (a b s s' : jsstring) :
  a ++ s = b ++ s' -> List.length a <= List.length b -> exists u, s = u ++ s'.
Proof.
  revert b; induction a as [|x a IH]; intros b H L.
  - exists b. exact H.
  - destruct b as [|y b]; simpl in L; [lia|].
    injection H as _ H. apply (IH b H). lia.
Qed.

Lemma split_first_inv (sub s b r : jsstring) :
  split_first sub s = Some (b, r) -> s = b ++ sub ++ r.
Proof.
  revert b; induction s as [|x s IH]; intros b; simpl.
  - destruct (strip_prefix sub []) eqn:E; [|discriminate].
    intros [= <- <-]. now apply strip_prefix_inv in E.
  - destruct (strip_prefix sub (x :: s)) eqn:E.
    + intros [= <- <-]. now apply strip_prefix_inv in E.
    + destruct (split_first sub s) as [[b' r']|]; [|discriminate].
      intros [= <- <-]. simpl. f_equal. now apply IH.
Qed.

Lemma split_first_none_tail (sub : jsstring) (x : code_unit) (s : jsstring) :
  split_first sub (x :: s) = None -> split_first sub s = None.
Proof.
  simpl. destruct (strip_prefix sub (x :: s)); [discriminate|].
  destruct (split_first sub s) as [[b r]|]; [discriminate|reflexivity].
Qed.

Lemma split_first_none_suffix (sub u s : jsstring) :
  split_first sub (u ++ s) = None -> split_first sub s = None.
Proof.
  induction u as [|x u IH]; simpl app; [auto|].
  intros H. apply IH. now apply split_first_none_tail in H.
Qed.

Lemma split_last_inv (sub s b r : jsstring) :
  split_last sub s = Some (b, r) -> s = b ++ sub ++ r.
Proof.
  revert b; induction s as [|x s IH]; intros b; simpl.
  - destruct (strip_prefix sub []) eqn:E; [|discriminate].
    intros [= <- <-]. now apply strip_prefix_inv in E.
  - destruct (split_last sub s) as [[b' r']|].
    + intros [= <- <-]. simpl. f_equal. now apply IH.
    + destruct (strip_prefix sub (x :: s)) eqn:E; [|discriminate].
      intros [= <- <-]. now apply strip_prefix_inv in E.
Qed.

Lemma split_last_none_suffix (sub u s : jsstring) :
  split_last sub (u ++ s) = None -> split_last sub s = None.
Proof.
  induction u as [|x u IH]; simpl app; [auto|].
  intros H. apply IH. simpl in H.
  destruct (split_last sub (u ++ s)) as [[b r]|]; [discriminate|reflexivity].
Qed.

Lemma hd_error_app {A} (l1 l2 : list A) :
  hd_error (l1 ++ l2) = match hd_error l1 with Some a => Some a | None => hd_error l2 end.
Proof. destruct l1; reflexivity. Qed.

Lemma hd_error_nil {A} (l : list A) : hd_error l = None -> l = [].
Proof. destruct l; [reflexivity|discriminate]. Qed.

Lemma flat_map_map {A B C} (f : B -> list C) (g : A -> B) (l : list A) :
  flat_map f (map g l) = flat_map (fun a => f (g a)) l.
Proof.
  induction l as [|a l IH]; simpl; [reflexivity|]. now rewrite IH.
Qed.

(** ** White space and fences *)

Example is_space_samples :
  map is_space [9; 10; 13; 32; 160; 8192; 8202; 8203; 8232; 65279; 96; 120]%N
  = [true; true; true; true; true; true; true; false; true; true; false; false].
Proof. reflexivity. Qed.

Lemma fence_eq : fence = [96; 96; 96]%N.
Proof. reflexivity. Qed.

Lemma fence_not_space (x : code_unit) (s : jsstring) :
  is_space x = true -> strip_prefix fence (x :: s) = None.
Proof.
  intros H. rewrite fence_eq. cbn [strip_prefix].
  destruct (N.eqb_spec 96 x) as [<-|]; [discriminate H|reflexivity].
Qed.

Lemma take_skip_spaces (s : jsstring) : take_spaces s ++ skip_spaces s = s.
Proof.
  induction s as [|x s IH]; simpl; [reflexivity|].
  destruct (is_space x); simpl; [now rewrite IH|reflexivity].
Qed.

Lemma skip_spaces_app (ws s : jsstring) :
  forallb is_space ws = true -> skip_spaces (ws ++ s) = skip_spaces s.
Proof.
  induction ws as [|x ws IH]; simpl; [reflexivity|].
  intros H. apply andb_true_iff in H as [-> H]. auto.
Qed.

Lemma take_spaces_app (ws s : jsstring) :
  forallb is_space ws = true -> take_spaces (ws ++ s) = ws ++ take_spaces s.
Proof.
  induction ws as [|x ws IH]; simpl; [reflexivity|].
  intros H. apply andb_true_iff in H as [-> H]. now rewrite IH.
Qed.

Lemma trim_end_nil (b : jsstring) : trim_end b = [] -> forallb is_space b = true.
Proof.
  induction b as [|x b IH]; simpl; [reflexivity|].
  destruct (trim_end b) eqn:E; [|discriminate].
  destruct (is_space x); [|discriminate]. intros _. now rewrite IH.
Qed.

Lemma trim_end_spaces (ws : jsstring) :
  forallb is_space ws = true -> trim_end ws = [].
Proof.
  induction ws as [|x ws IH]; simpl; [reflexivity|].
  intros H. apply andb_true_iff in H as [-> H]. now rewrite IH.
Qed.

Lemma split_first_skip_none (s : jsstring) :
  split_first fence (skip_spaces s) = None -> split_first fence s = None.
Proof.
  induction s as [|x s IH]; [auto|].
  cbn [skip_spaces]. destruct (is_space x) eqn:E; [|auto].
  intros H. cbn [split_first]. rewrite (fence_not_space x s E).
  now rewrite (IH H).
Qed.

(** ** The matcher on the two expressions of the handler *)

Lemma run_Seq (r1 r2 : regex) (st : mstate) :
  run (Seq r1 r2) st = flat_map (run r2) (run r1 st).
Proof. reflexivity. Qed.

Lemma run_Lit (l : jsstring) (s : jsstring) (cap : option jsstring) :
  run (Lit l) (MState s cap) =
  match strip_prefix l s with Some s' => [MState s' cap] | None => [] end.
Proof. reflexivity. Qed.

Lemma run_Star (c : charclass) (s : jsstring) (cap : option jsstring) :
  run (Star c) (MState s cap) = map (fun s' => MState s' cap) (star_greedy c s).
Proof. reflexivity. Qed.

Lemma run_Group_lazy (c : charclass) (s : jsstring) (cap : option jsstring) :
  run (Group (StarLazy c)) (MState s cap) =
  map (fun s' => MState s' (Some (consumed s s'))) (star_lazy c s).
Proof. cbn [run rest cap1]. now rewrite map_map. Qed.

Lemma in_class_any (x : code_unit) : in_class CAny x = true.
Proof. apply orb_negb_r. Qed.

(** White space, then the closing fence: the greedy iteration gives
    nothing back, since a fence does not start with white space. *)
Lemma run_close (s : jsstring) (cap : option jsstring) :
  run (Seq (Star CSpace) (Lit fence)) (MState s cap) =
  match strip_prefix fence (skip_spaces s) with
  | Some r => [MState r cap]
  | None => []
  end.
Proof.
  rewrite run_Seq, run_Star, flat_map_map.
  induction s as [|x s IH].
  - reflexivity.
  - cbn [star_greedy in_class skip_spaces]. destruct (is_space x) eqn:E.
    + rewrite flat_map_app. cbn [flat_map]. rewrite run_Lit.
      rewrite (fence_not_space x s E). cbn [app]. rewrite app_nil_r. exact IH.
    + cbn [flat_map]. now rewrite app_nil_r.
Qed.

Lemma lazy_close_hd (s pre : jsstring) :
  hd_error
    (flat_map (fun s' => run (Seq (Star CSpace) (Lit fence))
                             (MState s' (Some (consumed (pre ++ s) s'))))
              (star_lazy CAny s))
  = option_map (fun cr => MState (snd cr) (Some (pre ++ fst cr))) (find_close s).
Proof.
  revert pre; induction s as [|x s IH]; intros pre.
  - reflexivity.
  - cbn [star_lazy find_close]. rewrite in_class_any. cbn [flat_map].
    rewrite run_close, hd_error_app.
    destruct (strip_prefix fence (skip_spaces (x :: s))) as [r|] eqn:E.
    + cbn. now rewrite consumed_app, app_nil_r.
    + cbn [hd_error].
      replace (pre ++ x :: s) with ((pre ++ [x]) ++ s) by now rewrite <- app_assoc.
      rewrite IH. destruct (find_close s) as [[c r]|]; cbn; [|reflexivity].
      now rewrite <- app_assoc.
Qed.

Lemma run_body_hd (s : jsstring) (cap : option jsstring) :
  hd_error (run (Seq (Group (StarLazy CAny)) (Seq (Star CSpace) (Lit fence)))
                (MState s cap))
  = option_map (fun cr => MState (snd cr) (Some (fst cr))) (find_close s).
Proof.
  rewrite run_Seq, run_Group_lazy, flat_map_map.
  exact (lazy_close_hd s []).
Qed.

(** The lazy search finds the first fence and leaves out the white
    space before it. *)
Lemma find_close_spaces (s r : jsstring) :
  strip_prefix fence (skip_spaces s) = Some r ->
  split_first fence s = Some (take_spaces s, r).
Proof.
  induction s as [|x s IH]; [discriminate|].
  cbn [skip_spaces take_spaces split_first]. destruct (is_space x) eqn:E.
  - intros H. rewrite (fence_not_space x s E), (IH H). reflexivity.
  - now intros ->.
Qed.

Lemma take_spaces_all (s : jsstring) : forallb is_space (take_spaces s) = true.
Proof.
  induction s as [|x s IH]; [reflexivity|]. cbn [take_spaces].
  destruct (is_space x) eqn:E; [|reflexivity]. cbn. now rewrite E.
Qed.

Lemma find_close_split (s : jsstring) :
  find_close s =
  match split_first fence s with
  | Some (inner, post) => Some (trim_end inner, post)
  | None => None
  end.
Proof.
  induction s as [|x s IH]; [reflexivity|].
  cbn [find_close].
  destruct (strip_prefix fence (skip_spaces (x :: s))) as [r|] eqn:E.
  - rewrite (find_close_spaces _ _ E).
    now rewrite (trim_end_spaces _ (take_spaces_all (x :: s))).
  - cbn [split_first].
    destruct (strip_prefix fence (x :: s)) as [r|] eqn:E1.
    + exfalso. cbn [skip_spaces] in E.
      destruct (is_space x) eqn:Ex; [|congruence].
      rewrite (fence_not_space x s Ex) in E1. discriminate.
    + rewrite IH. destruct (split_first fence s) as [[b r]|] eqn:E2; [|reflexivity].
      f_equal. f_equal. cbn [trim_end].
      destruct (trim_end b) eqn:Eb; [|reflexivity].
      destruct (is_space x) eqn:Ex; [|reflexivity].
      exfalso. apply split_first_inv in E2. subst s.
      cbn [skip_spaces] in E. rewrite Ex in E.
      rewrite (skip_spaces_app b (fence ++ r) (trim_end_nil b Eb)) in E.
      rewrite fence_eq in E. cbn in E. discriminate.
Qed.

Lemma find_close_skip_none (s : jsstring) :
  find_close (skip_spaces s) = None -> find_close s = None.
Proof.
  rewrite !find_close_split. intros H.
  destruct (split_first fence (skip_spaces s)) as [[b r]|] eqn:E; [discriminate|].
  now rewrite (split_first_skip_none _ E).
Qed.

(** Leading white space: the longest run decides. *)
Lemma run_inner_hd (s : jsstring) (cap : option jsstring) :
  hd_error
    (run (Seq (Star CSpace)
              (Seq (Group (StarLazy CAny)) (Seq (Star CSpace) (Lit fence))))
         (MState s cap))
  = option_map (fun cr => MState (snd cr) (Some (fst cr)))
               (find_close (skip_spaces s)).
Proof.
  rewrite run_Seq, run_Star, flat_map_map.
  induction s as [|x s IH].
  - cbn [star_greedy flat_map skip_spaces]. rewrite app_nil_r. apply run_body_hd.
  - cbn [star_greedy in_class skip_spaces]. destruct (is_space x) eqn:E.
    + rewrite flat_map_app, hd_error_app, IH.
      destruct (find_close (skip_spaces s)) as [[c r]|] eqn:F; [reflexivity|].
      cbn [option_map flat_map]. rewrite app_nil_r, run_body_hd.
      assert (G : find_close (skip_spaces (x :: s)) = None)
        by (cbn [skip_spaces]; now rewrite E).
      now rewrite (find_close_skip_none _ G).
    + cbn [flat_map]. rewrite app_nil_r. apply run_body_hd.
Qed.

Lemma split_first_cons_none (sub : jsstring) (x : code_unit) (s : jsstring) :
  strip_prefix sub (x :: s) = None -> split_first sub s = None ->
  split_first sub (x :: s) = None.
Proof. intros H1 H2. cbn [split_first]. now rewrite H1, H2. Qed.

Lemma split_first_xml_none (s : jsstring) :
  split_first fence s = None -> split_first fence (xml_tag ++ s) = None.
Proof.
  intros H. change (xml_tag ++ s) with (120 :: 109 :: 108 :: s)%N.
  repeat (apply split_first_cons_none; [reflexivity|]). exact H.
Qed.

Lemma strip_opt_suffix (p s : jsstring) :
  (if starts_with p s then p else []) ++ strip_opt p s = s.
Proof.
  unfold starts_with, strip_opt.
  destruct (strip_prefix p s) as [r|] eqn:E; [|reflexivity].
  symmetry. now apply strip_prefix_inv.
Qed.

(** A text without a fence has no closing fence after a tag and white
    space either, and conversely. *)
Lemma no_fence_up (s : jsstring) :
  find_close (skip_spaces (strip_opt xml_tag s)) = None ->
  split_first fence s = None.
Proof.
  intros H. apply find_close_skip_none in H. rewrite find_close_split in H.
  destruct (split_first fence (strip_opt xml_tag s)) as [[b r]|] eqn:E;
    [discriminate|].
  unfold strip_opt in E. destruct (strip_prefix xml_tag s) as [s2|] eqn:E2; [|exact E].
  apply strip_prefix_inv in E2. subst s. now apply split_first_xml_none.
Qed.

Lemma no_fence_down (s : jsstring) :
  split_first fence s = None ->
  find_close (skip_spaces (strip_opt xml_tag s)) = None.
Proof.
  intros H. rewrite find_close_split.
  rewrite <- (strip_opt_suffix xml_tag s) in H.
  apply split_first_none_suffix in H.
  rewrite <- (take_skip_spaces (strip_opt xml_tag s)) in H.
  apply split_first_none_suffix in H. now rewrite H.
Qed.

Lemma run_fenced_hd (s : jsstring) :
  hd_error (run re_fenced (MState s None)) =
  match strip_prefix fence s with
  | None => None
  | Some s1 =>
      option_map (fun cr => MState (snd cr) (Some (fst cr)))
                 (find_close (skip_spaces (strip_opt xml_tag s1)))
  end.
Proof.
  unfold re_fenced. rewrite run_Seq, run_Lit.
  destruct (strip_prefix fence s) as [s1|]; [|reflexivity].
  cbn [flat_map]. rewrite app_nil_r, run_Seq.
  change (run (Opt (Lit xml_tag)) (MState s1 None))
    with (run (Lit xml_tag) (MState s1 None) ++ [MState s1 None]).
  rewrite run_Lit. unfold strip_opt.
  destruct (strip_prefix xml_tag s1) as [s2|] eqn:E.
  - cbn [app flat_map]. rewrite app_nil_r, hd_error_app, !run_inner_hd.
    destruct (find_close (skip_spaces s2)) as [[c r]|] eqn:F; [reflexivity|].
    cbn [option_map].
    assert (G : split_first fence s1 = None).
    { apply no_fence_up. unfold strip_opt. now rewrite E. }
    rewrite <- (take_skip_spaces s1) in G. apply split_first_none_suffix in G.
    rewrite find_close_split. now rewrite G.
  - cbn [app flat_map]. rewrite app_nil_r. apply run_inner_hd.
Qed.

Lemma str_match_step (s : jsstring) (r : regex) :
  str_match s r =
  match hd_error (run r (MState s None)) with
  | Some st => Some (MatchArray (consumed s (rest st)) (cap1 st))
  | None =>
      match s with
      | [] => None
      | _ :: s' => str_match s' r
      end
  end.
Proof. destruct s; cbn [str_match]; destruct (run r _); reflexivity. Qed.

(** The first expression matches at the first fence of the text or
    nowhere. *)
Lemma str_match_fenced (t : jsstring) :
  str_match t re_fenced =
  match split_first fence t with
  | None => None
  | Some (_, s1) =>
      match find_close (skip_spaces (strip_opt xml_tag s1)) with
      | Some (c, r) => Some (MatchArray (consumed (fence ++ s1) r) (Some c))
      | None => None
      end
  end.
Proof.
  induction t as [|x t IH]; [reflexivity|].
  rewrite str_match_step, run_fenced_hd. cbn [split_first].
  destruct (strip_prefix fence (x :: t)) as [s1|] eqn:E.
  - pose proof (strip_prefix_inv _ _ _ E) as E'.
    destruct (find_close (skip_spaces (strip_opt xml_tag s1))) as [[c r]|] eqn:F.
    + cbn [option_map rest cap1 fst snd]. now rewrite E'.
    + cbn [option_map]. rewrite IH.
      destruct (split_first fence t) as [[pre' s1']|] eqn:G; [|reflexivity].
      apply split_first_inv in G. apply no_fence_up in F.
      rewrite fence_eq in E'. injection E' as _ E'.
      assert (S : exists u, s1 = u ++ s1').
      { apply (app_suffix [96; 96]%N (pre' ++ fence)).
        - rewrite <- app_assoc, <- G, E'. reflexivity.
        - rewrite length_app, fence_eq. simpl. lia. }
      destruct S as [u ->]. apply split_first_none_suffix in F.
      now rewrite (no_fence_down _ F).
  - rewrite IH. destruct (split_first fence t) as [[b r]|]; reflexivity.
Qed.

Lemma str_match_fenced_block (t : jsstring) :
  str_match t re_fenced =
  option_map (fun ib => MatchArray (snd ib) (Some (fst ib))) (fenced_block t).
Proof.
  rewrite str_match_fenced. unfold fenced_block.
  destruct (split_first fence t) as [[pre s1]|]; [|reflexivity].
  rewrite find_close_split.
  destruct (split_first fence (skip_spaces (strip_opt xml_tag s1)))
    as [[inner post]|] eqn:E; [|reflexivity].
  cbn [option_map fst snd]. f_equal. f_equal.
  apply split_first_inv in E.
  rewrite <- (strip_opt_suffix xml_tag s1) at 1.
  rewrite <- (take_skip_spaces (strip_opt xml_tag s1)) at 1.
  rewrite E.
  replace (fence ++ (if starts_with xml_tag s1 then xml_tag else []) ++
           take_spaces (strip_opt xml_tag s1) ++ inner ++ fence ++ post)
    with ((fence ++ (if starts_with xml_tag s1 then xml_tag else []) ++
           take_spaces (strip_opt xml_tag s1) ++ inner ++ fence) ++ post)
    by now rewrite <- !app_assoc.
  apply consumed_app.
Qed.

(** The second expression: the greedy iteration gives back as little as
    it can, so the last closing tag ends the match. *)
Lemma greedy_close_hd (s : jsstring) (cap : option jsstring) :
  hd_error (flat_map (run (Lit closing_tag))
                     (map (fun s' => MState s' cap) (star_greedy CAny s)))
  = option_map (fun br => MState (snd br) cap) (split_last closing_tag s).
Proof.
  induction s as [|x s IH]; [reflexivity|].
  cbn [star_greedy split_last]. rewrite in_class_any.
  rewrite map_app, flat_map_app, hd_error_app, IH.
  destruct (split_last closing_tag s) as [[b r]|]; [reflexivity|].
  cbn [option_map map flat_map]. rewrite app_nil_r, run_Lit.
  destruct (strip_prefix closing_tag (x :: s)); reflexivity.
Qed.

Lemma run_prolog_hd (s : jsstring) :
  hd_error (run re_prolog (MState s None)) =
  match strip_prefix prolog s with
  | None => None
  | Some s1 =>
      option_map (fun br => MState (snd br) None) (split_last closing_tag s1)
  end.
Proof.
  unfold re_prolog. rewrite run_Seq, run_Lit.
  destruct (strip_prefix prolog s) as [s1|]; [|reflexivity].
  cbn [flat_map]. rewrite app_nil_r, run_Seq, run_Star.
  apply greedy_close_hd.
Qed.

Lemma prolog_eq : prolog = [60; 63; 120; 109; 108]%N.
Proof. reflexivity. Qed.

Lemma str_match_prolog (t : jsstring) :
  str_match t re_prolog =
  match split_first prolog t with
  | None => None
  | Some (_, s1) =>
      match split_last closing_tag s1 with
      | Some (_, r) => Some (MatchArray (consumed (prolog ++ s1) r) None)
      | None => None
      end
  end.
Proof.
  induction t as [|x t IH]; [reflexivity|].
  rewrite str_match_step, run_prolog_hd. cbn [split_first].
  destruct (strip_prefix prolog (x :: t)) as [s1|] eqn:E.
  - pose proof (strip_prefix_inv _ _ _ E) as E'.
    destruct (split_last closing_tag s1) as [[b r]|] eqn:F.
    + cbn [option_map rest cap1 fst snd]. now rewrite E'.
    + cbn [option_map]. rewrite IH.
      destruct (split_first prolog t) as [[pre' s1']|] eqn:G; [|reflexivity].
      apply split_first_inv in G.
      rewrite prolog_eq in E'. injection E' as _ E'.
      assert (S : exists u, s1 = u ++ s1').
      { apply (app_suffix [63; 120; 109; 108]%N (pre' ++ prolog)).
        - rewrite <- app_assoc, <- G, E'. reflexivity.
        - rewrite length_app, prolog_eq. simpl. lia. }
      destruct S as [u ->]. apply split_last_none_suffix in F.
      now rewrite F.
  - rewrite IH. destruct (split_first prolog t) as [[b r]|]; reflexivity.
Qed.

Lemma str_match_prolog_span (t : jsstring) :
  str_match t re_prolog =
  option_map (fun sp => MatchArray sp None) (prolog_span t).
Proof.
  rewrite str_match_prolog. unfold prolog_span.
  destruct (split_first prolog t) as [[pre s1]|]; [|reflexivity].
  destruct (split_last closing_tag s1) as [[mid r]|] eqn:E; [|reflexivity].
  cbn [option_map]. f_equal. f_equal.
  apply split_last_inv in E. rewrite E.
  replace (prolog ++ mid ++ closing_tag ++ r)
    with ((prolog ++ mid ++ closing_tag) ++ r) by now rewrite <- !app_assoc.
  apply consumed_app.
Qed.

(** The extraction of the handler, characterised without the matcher. *)
Lemma jmx_from_text_rule (t : jsstring) : jmx_from_text t = extraction_rule t.
Proof.
  unfold jmx_from_text, extraction_rule, span_or_text.
  rewrite str_match_fenced_block, str_match_prolog_span.
  destruct (fenced_block t) as [[interior block]|].
  - cbn. destruct interior; reflexivity.
  - cbn. destruct (prolog_span t); reflexivity.
Qed.

(** ** The extraction rule (C1, C10) *)

Lemma strip_prefix_short (p a c : jsstring) :
  strip_prefix p a = None -> List.length p <= List.length a ->
  strip_prefix p (a ++ c) = None.
Proof.
  revert a; induction p as [|x p IH]; intros a; [discriminate|].
  destruct a as [|y a]; simpl List.length; [lia|].
  cbn [strip_prefix app]. destruct (N.eqb x y); [|reflexivity].
  intros H L. apply IH; [exact H|lia].
Qed.

(** A fence that no earlier fence precedes, or overlaps, is the first. *)
Lemma split_first_fence_app (pre s : jsstring) :
  includes (pre ++ [96; 96]%N) fence = false ->
  split_first fence (pre ++ fence ++ s) = Some (pre, s).
Proof.
  induction pre as [|x pre IH]; intros H.
  - cbn [app]. destruct (fence ++ s) eqn:E; cbn [split_first];
      rewrite <- E, strip_prefix_app; reflexivity.
  - cbn [app includes] in H. apply orb_false_iff in H as [H1 H2].
    unfold starts_with in H1.
    destruct (strip_prefix fence (x :: pre ++ [96; 96]%N)) eqn:E; [discriminate|].
    cbn [app split_first].
    replace (x :: pre ++ fence ++ s)
      with ((x :: pre ++ [96; 96]%N) ++ (96%N :: s))
      by (rewrite fence_eq; cbn [app]; rewrite <- app_assoc; reflexivity).
    rewrite (strip_prefix_short _ _ _ E).
    + replace ((x :: pre ++ [96; 96]%N) ++ 96%N :: s)
        with (x :: pre ++ fence ++ s)
        by (rewrite fence_eq; cbn [app]; rewrite <- app_assoc; reflexivity).
      now rewrite (IH H2).
    + rewrite fence_eq. cbn [List.length]. rewrite length_app. simpl. lia.
Qed.

Lemma strip_xml_spaces (ws s : jsstring) :
  forallb is_space ws = true -> strip_prefix xml_tag (ws ++ fence ++ s) = None.
Proof.
  destruct ws as [|x ws]; [reflexivity|].
  cbn [forallb]. intros H. apply andb_true_iff in H as [H _].
  change xml_tag with [120; 109; 108]%N. cbn [app strip_prefix].
  destruct (N.eqb_spec 120 x) as [<-|]; [discriminate H|reflexivity].
Qed.

Lemma take_spaces_fence (s : jsstring) : take_spaces (fence ++ s) = [].
Proof. reflexivity. Qed.

Lemma skip_spaces_fence (s : jsstring) : skip_spaces (fence ++ s) = fence ++ s.
Proof. reflexivity. Qed.

Lemma fenced_block_empty (pre tag ws post : jsstring) :
  includes (pre ++ [96; 96]%N) fence = false ->
  tag = [] \/ tag = xml_tag ->
  forallb is_space ws = true ->
  fenced_block (pre ++ fence ++ tag ++ ws ++ fence ++ post)
  = Some ([], fence ++ tag ++ ws ++ fence).
Proof.
  intros Hpre Htag Hws. unfold fenced_block.
  rewrite (split_first_fence_app _ _ Hpre).
  assert (E : starts_with xml_tag (tag ++ ws ++ fence ++ post)
              = match tag with [] => false | _ => true end
              /\ strip_opt xml_tag (tag ++ ws ++ fence ++ post)
                 = ws ++ fence ++ post).
  { unfold starts_with, strip_opt. destruct Htag as [-> | ->].
    - cbn [app]. now rewrite (strip_xml_spaces _ _ Hws).
    - now rewrite strip_prefix_app. }
  destruct E as [E1 E2]. rewrite E1, E2.
  rewrite (skip_spaces_app _ _ Hws), skip_spaces_fence.
  rewrite (take_spaces_app _ _ Hws), take_spaces_fence.
  assert (F : split_first fence (fence ++ post) = Some ([], post))
    by (apply (split_first_fence_app [] post); reflexivity).
  rewrite F. cbn [trim_end]. rewrite !app_nil_r.
  destruct Htag as [-> | ->]; reflexivity.
Qed.

(** C10: when the first fenced block of the text holds nothing but white
    space between its fences (after an optional [xml] tag), the extracted
    candidate is the whole block, backtick fences included, and not the
    empty interior: the empty capture is falsy and [xmlMatch[1] ||
    xmlMatch[0]] falls back to the full match. *)
Theorem empty_fenced_block_yields_whole_block (pre tag ws post : jsstring) :
  includes (pre ++ lit "``") fence = false ->
  tag = [] \/ tag = xml_tag ->
  forallb is_space ws = true ->
  jmx_from_text (pre ++ fence ++ tag ++ ws ++ fence ++ post)
  = fence ++ tag ++ ws ++ fence.
Proof.
  intros Hpre Htag Hws. rewrite jmx_from_text_rule. unfold extraction_rule.
  now rewrite (fenced_block_empty pre tag ws post Hpre Htag Hws).
Qed.

Lemma empty_fenced_block_witness :
  jmx_from_text (lit "Here it is: " ++ fence ++ xml_tag ++ nl ++ fence
                 ++ lit " done")
  = fence ++ xml_tag ++ nl ++ fence.
Proof.
  apply (empty_fenced_block_yields_whole_block
           (lit "Here it is: ") xml_tag nl (lit " done")).
  - reflexivity.
  - right. reflexivity.
  - reflexivity.
Defined.

Lemma extract_reply (P : Platform) (p t : jsstring) (tr : list event) :
  extract P p (reply_for p t) tr = (inr (jmx_from_text t), tr).
Proof.
  unfold extract, reply_for.
  destruct (str_eqb p google); destruct t; reflexivity.
Qed.

(** C1, as the specification states it, fails on a fenced block with an
    empty interior: the candidate is the whole block, not the interior. *)
Lemma stated_rule_fails_on_empty_block :
  fenced_block empty_block = Some ([], empty_block) /\
  stated_rule empty_block = [] /\
  jmx_from_text empty_block = empty_block /\
  jmx_from_text empty_block <> stated_rule empty_block.
Proof.
  repeat split; try reflexivity. vm_compute. discriminate.
Qed.

(** C1, amended: for every raw provider text, and identically for both
    providers, the candidate is determined by this rule.  If the text
    contains a fenced block (an opening fence, directly followed by [xml]
    or not, and the next fence after it), the candidate is the interior
    of the first such block without the white space around it or, when
    that interior is empty, the whole block with its fences.  Otherwise,
    if the text contains an XML prolog with a closing [jmeterTestPlan]
    tag after it, the candidate is the span from the first prolog through
    the last such tag.  Otherwise the candidate is the entire text. *)
Theorem extraction_rule_both_providers
  (P : Platform) (p t : jsstring) (tr : list event) :
  jmx_from_text t = extraction_rule t /\
  extract P p (reply_for p t) tr = (inr (extraction_rule t), tr) /\
  extract P google (google_reply t) tr
  = extract P (lit "openai") (openai_reply t) tr.
Proof.
  pose proof (extract_reply P google t tr) as Hg.
  pose proof (extract_reply P (lit "openai") t tr) as Ho.
  change (reply_for google t) with (google_reply t) in Hg.
  change (reply_for (lit "openai") t) with (openai_reply t) in Ho.
  rewrite extract_reply, Hg, Ho, jmx_from_text_rule. auto.
Qed.

(** The scenarios of the specification: a fenced block tagged [xml]
    around a test plan, a prolog-to-closing-tag span without a fence, and
    a text with neither. *)
Example fenced_plan :
  jmx_from_text (lit "Here is the plan:" ++ nl ++ good_text ++ nl ++ lit "Enjoy.")
  = lit "<jmeterTestPlan version=1.2></jmeterTestPlan>".
Proof. reflexivity. Qed.

Example prolog_plan :
  jmx_from_text
    (lit "Plan: <?xml version=1.0?><jmeterTestPlan></jmeterTestPlan> (end)")
  = lit "<?xml version=1.0?><jmeterTestPlan></jmeterTestPlan>".
Proof. reflexivity. Qed.

Example plain_text :
  jmx_from_text (lit "Sorry, I cannot help with that.")
  = lit "Sorry, I cannot help with that.".
Proof. reflexivity. Qed.

(** ** The phases of an invocation *)

Lemma prepare_body_error (P : Platform) (req : Request) (e : exn)
  (t : list event) :
  req_json req = inl e -> prepare P req t = (inl e, t).
Proof. intros H. unfold prepare, bind, lift. now rewrite H. Qed.

Lemma prepare_har_error (P : Platform) (req : Request) (b : RequestBody)
  (e : exn) (t : list event) :
  req_json req = inr b -> decode_har P (harContent b) = inl e ->
  prepare P req t =
  (inl e, t ++ [ConsoleLog [LStr (lit "Processing HAR file with OpenAI...")]]).
Proof.
  intros H1 H2. unfold prepare, bind, lift. rewrite H1.
  cbn [ret console_log emit throw]. now rewrite H2.
Qed.

Lemma prepare_ok (P : Platform) (req : Request) (b : RequestBody)
  (har : HarFile) (t : list event) :
  req_json req = inr b -> decode_har P (harContent b) = inr har ->
  prepare P req t =
  (inr (context_of P b har),
   (t ++ [ConsoleLog [LStr (lit "Processing HAR file with OpenAI...")]])
   ++ [ConsoleLog [LStr (lit "Found "
                         ++ nat_to_jsstring (List.length (entries (log har)))
                         ++ lit " HTTP requests in HAR file")]]).
Proof.
  intros H1 H2. unfold prepare, bind, lift. rewrite H1.
  cbn [ret console_log emit throw]. now rewrite H2.
Qed.

Lemma call_provider_missing (P : Platform) (b : RequestBody)
  (prompt : jsstring) (t : list event) :
  required_key P b = None ->
  call_provider P (selected b) prompt t
  = (inl (new_Error P (key_message b)), t).
Proof.
  unfold required_key, key_message, call_provider.
  destruct (str_eqb (selected b) google); intros ->; reflexivity.
Qed.

Lemma serve_unfold (P : Platform) (req : Request) :
  str_eqb (req_method req) (lit "OPTIONS") = false ->
  serve P req =
  match main P req [] with
  | (inl e, t) =>
      (inr (error_response e),
       t ++ [ConsoleError [LStr (lit "Error in har-to-jmeter function:"); LExn e]])
  | r => r
  end.
Proof.
  intros H. unfold serve, handler, try_catch. rewrite H.
  destruct (main P req []) as [[e|r] t]; reflexivity.
Qed.

Lemma main_unfold (P : Platform) (req : Request) (t : list event) :
  main P req t =
  match candidate P req t with
  | (inr cj, t') => respond P (fst cj) (snd cj) t'
  | (inl e, t') => (inl e, t')
  end.
Proof. reflexivity. Qed.

Lemma candidate_unfold (P : Platform) (req : Request) (t : list event) :
  candidate P req t =
  match provider_reply P req t with
  | (inr cr, t') =>
      match read_jmx P (ctx_provider (fst cr)) (snd cr) t' with
      | (inr j, t'') => (inr (fst cr, j), t'')
      | (inl e, t'') => (inl e, t'')
      end
  | (inl e, t') => (inl e, t')
  end.
Proof.
  unfold candidate, bind. destruct (provider_reply P req t) as [[e|cr] t']; reflexivity.
Qed.

Lemma provider_reply_unfold (P : Platform) (req : Request) (t : list event) :
  provider_reply P req t =
  match prepare P req t with
  | (inr c, t') =>
      match call_provider P (ctx_provider c) (jmxPrompt c) t' with
      | (inr r, t'') => (inr (c, r), t'')
      | (inl e, t'') => (inl e, t'')
      end
  | (inl e, t') => (inl e, t')
  end.
Proof.
  unfold provider_reply, bind. destruct (prepare P req t) as [[e|c] t']; reflexivity.
Qed.

(** The reply of a provider with a status outside 200-299. *)
Lemma read_jmx_not_ok (P : Platform) (p : jsstring) (r : ProviderResponse)
  (t : list event) :
  ok r = false ->
  read_jmx P p r t =
  (inl (new_Error P (lit "Failed to generate JMX file using AI: "
                     ++ p ++ lit " API error: " ++ statusText r)),
   (t ++ [ConsoleError [LStr (p ++ lit " API error:"); LStr (body_text r)]])
   ++ [ConsoleError [LStr (lit "Error generating JMX with " ++ p ++ lit ":");
                     LExn (new_Error P (p ++ lit " API error: " ++ statusText r))]]).
Proof. intros H. unfold read_jmx, try_catch, bind. now rewrite H. Qed.

Lemma mapM_cons {A B} (f : A -> exn + B) (a : A) (l : list A)
  (t : list event) :
  mapM (fun a => lift (f a)) (a :: l) t =
  match f a with
  | inl e => (inl e, t)
  | inr b =>
      match mapM (fun a => lift (f a)) l t with
      | (inr bs, t') => (inr (b :: bs), t')
      | (inl e, t') => (inl e, t')
      end
  end.
Proof.
  cbn [mapM]. unfold bind, lift. destruct (f a); [reflexivity|].
  cbn [ret]. destruct (mapM _ l t) as [[e|bs] t']; reflexivity.
Qed.

Lemma mapM_lift {A B} (f : A -> exn + B) (l : list A) (t : list event) :
  (exists e, mapM (fun a => lift (f a)) l t = (inl e, t)) \/
  (exists bs, mapM (fun a => lift (f a)) l t = (inr bs, t)
              /\ Forall2 (fun a b => f a = inr b) l bs).
Proof.
  induction l as [|a l IH].
  - right. exists []. split; [reflexivity|constructor].
  - rewrite mapM_cons. destruct (f a) as [e|b] eqn:E.
    + left. now exists e.
    + destruct IH as [[e He]|[bs [Hbs HF]]]; rewrite ?He, ?Hbs.
      * left. now exists e.
      * right. exists (b :: bs). split; [reflexivity|].
        constructor; assumption.
Qed.

(** What a successful run of lines 185-207 returns. *)
Lemma respond_ok (P : Platform) (c : Context) (j : jsstring)
  (t t' : list event) (r : Response) :
  respond P c j t = (inr r, t') ->
  invalid_jmx j = false /\
  exists hosts,
    Forall2 (fun e h => URL_hostname P (url (request e)) = inr h)
            (ctx_entries c) hosts /\
    r = {| resp_status := 200;
           resp_headers := jsonHeaders;
           resp_body :=
             BodySuccess j
               {| provider := if str_eqb (ctx_provider c) google
                              then lit "Google AI Studio" else lit "OpenAI";
                  generatedByAI := true;
                  meta_testPlanName := ctx_testPlanName c |}
               {| totalRequests := List.length (ctx_entries c);
                  uniqueDomains := distinct hosts;
                  methodsUsed :=
                    distinct (map (fun e => method (request e)) (ctx_entries c));
                  avgResponseTime := average (ctx_entries c) |} |}.
Proof.
  unfold respond. destruct (invalid_jmx j); [discriminate|].
  unfold bind at 1. cbn [console_log emit]. unfold bind at 1.
  destruct (mapM_lift (fun e => URL_hostname P (url (request e)))
              (ctx_entries c)
              (t ++ [ConsoleLog [LStr (lit "JMeter XML generated successfully")]]))
    as [[e He]|[hosts [Hh HF]]].
  - rewrite He. discriminate.
  - rewrite Hh. cbn [ret]. intros [= <- _]. split; [reflexivity|].
    exists hosts. split; [exact HF|reflexivity].
Qed.

Lemma respond_invalid (P : Platform) (c : Context) (j : jsstring)
  (t : list event) :
  invalid_jmx j = true ->
  respond P c j t =
  (inl (new_Error P (lit "AI did not generate valid JMeter XML content")), t).
Proof. intros H. unfold respond. now rewrite H. Qed.

Lemma invalid_jmx_true (j : jsstring) :
  invalid_jmx j = true <-> j = [] \/ includes j root_marker = false.
Proof.
  unfold invalid_jmx. rewrite orb_true_iff, negb_true_iff.
  destruct j; intuition discriminate.
Qed.

(** A successful response comes from [respond], after every earlier
    phase has succeeded. *)
Lemma success_inv (P : Platform) (req : Request) (resp : Response)
  (tr : list event) (j : jsstring) (md : Metadata) (sm : Summary) :
  serve P req = (inr resp, tr) -> resp_body resp = BodySuccess j md sm ->
  exists c j' t t', candidate P req [] = (inr (c, j'), t)
                    /\ respond P c j' t = (inr resp, t').
Proof.
  intros Hs Hb.
  destruct (str_eqb (req_method req) (lit "OPTIONS")) eqn:Em.
  - unfold serve, handler in Hs. rewrite Em in Hs.
    injection Hs as <- _. discriminate Hb.
  - rewrite (serve_unfold P req Em), main_unfold in Hs.
    destruct (candidate P req []) as [[e|[c j']] t].
    + injection Hs as <- _. discriminate Hb.
    + cbn [fst snd] in Hs.
      destruct (respond P c j' t) as [[e|r] t'] eqn:Er.
      * injection Hs as <- _. discriminate Hb.
      * injection Hs as -> _. now exists c, j', t, t'.
Qed.

Lemma candidate_context (P : Platform) (req : Request) (b : RequestBody)
  (har : HarFile) (c : Context) (j : jsstring) (t0 t : list event) :
  req_json req = inr b -> decode_har P (harContent b) = inr har ->
  candidate P req t0 = (inr (c, j), t) -> c = context_of P b har.
Proof.
  intros H1 H2. rewrite candidate_unfold, provider_reply_unfold.
  rewrite (prepare_ok P req b har t0 H1 H2).
  destruct (call_provider P _ _ _) as [[e|r] t']; [discriminate|].
  cbn [fst snd]. destruct (read_jmx P _ _ _) as [[e|j'] t'']; [discriminate|].
  now intros [= <- _ _].
Qed.

(** ** Preflight and response headers (C8, C9) *)

(** C8: a request whose method is [OPTIONS] is answered at once with an
    empty body and the permissive cross-origin headers,
    [Access-Control-Allow-Origin: *] and the allow-list of request
    headers, and nothing else; the trace of the invocation is empty, so no
    provider is called and nothing else is done. *)
Theorem preflight_is_immediate (P : Platform) (req : Request) :
  req_method req = lit "OPTIONS" ->
  exists resp,
    serve P req = (inr resp, []) /\
    resp_body resp = BodyNull /\
    resp_headers resp =
      [ (lit "Access-Control-Allow-Origin", lit "*");
        (lit "Access-Control-Allow-Headers",
         lit "authorization, x-client-info, apikey, content-type") ].
Proof.
  intros H. exists preflight_response. unfold serve, handler.
  rewrite H, str_eqb_refl. auto.
Qed.

Lemma preflight_is_immediate_witness :
  exists resp,
    serve (demo_platform all_keys bad_reply JNull)
          {| req_method := lit "OPTIONS"; req_json := inl syntax_error |}
    = (inr resp, []) /\
    resp_body resp = BodyNull /\
    resp_headers resp =
      [ (lit "Access-Control-Allow-Origin", lit "*");
        (lit "Access-Control-Allow-Headers",
         lit "authorization, x-client-info, apikey, content-type") ].
Proof.
  apply (preflight_is_immediate
           (demo_platform all_keys bad_reply JNull)
           {| req_method := lit "OPTIONS"; req_json := inl syntax_error |}).
  reflexivity.
Defined.

(** C9, as the specification states it, fails on the preflight response:
    it has no [Content-Type] header at all. *)
Lemma preflight_lacks_content_type :
  exists resp,
    serve (demo_platform all_keys bad_reply JNull)
          {| req_method := lit "OPTIONS"; req_json := inl syntax_error |}
    = (inr resp, []) /\
    forall v, ~ In (lit "Content-Type", v) (resp_headers resp).
Proof.
  exists preflight_response. split; [reflexivity|].
  intros v [H|[H|[]]]; vm_compute in H; discriminate H.
Qed.

(** C9, amended: every invocation returns a response, and every response
    carries the two permissive cross-origin headers,
    [Access-Control-Allow-Origin: *] and [Access-Control-Allow-Headers]
    with the allow-list of request headers; the responses to requests
    other than the preflight, successes and errors alike, also carry
    [Content-Type: application/json], while the preflight response carries
    the two cross-origin headers only. *)
Theorem every_response_has_cors_headers (P : Platform) (req : Request) :
  exists resp tr,
    serve P req = (inr resp, tr) /\
    In (lit "Access-Control-Allow-Origin", lit "*") (resp_headers resp) /\
    In (lit "Access-Control-Allow-Headers",
        lit "authorization, x-client-info, apikey, content-type")
       (resp_headers resp) /\
    if str_eqb (req_method req) (lit "OPTIONS")
    then resp_headers resp =
      [ (lit "Access-Control-Allow-Origin", lit "*");
        (lit "Access-Control-Allow-Headers",
         lit "authorization, x-client-info, apikey, content-type") ]
    else In (lit "Content-Type", lit "application/json") (resp_headers resp).
Proof.
  assert (J : In (lit "Access-Control-Allow-Origin", lit "*") jsonHeaders /\
              In (lit "Access-Control-Allow-Headers",
                  lit "authorization, x-client-info, apikey, content-type")
                 jsonHeaders /\
              In (lit "Content-Type", lit "application/json") jsonHeaders).
  { split; [now left|]. split; [right; now left|]. right. right. now left. }
  destruct (str_eqb (req_method req) (lit "OPTIONS")) eqn:Em.
  - exists preflight_response, []. unfold serve, handler. rewrite Em.
    split; [reflexivity|]. split; [now left|]. split; [right; now left|].
    reflexivity.
  - rewrite (serve_unfold P req Em), main_unfold.
    destruct (candidate P req []) as [[e|[c j]] t].
    + eexists _, _. split; [reflexivity|]. exact J.
    + cbn [fst snd]. destruct (respond P c j t) as [[e|r] t'] eqn:Er.
      * eexists _, _. split; [reflexivity|]. exact J.
      * exists r, t'. split; [reflexivity|].
        apply respond_ok in Er as [_ [hosts [_ ->]]]. exact J.
Qed.

(** ** The load configuration (C5) *)

(** C5: replacing the load configuration of a request by any other one
    changes neither the prompt (the context and the trace after lines
    49-99), nor the outbound provider request and its reply, nor the
    response and the trace of the invocation: no value of the load
    configuration is read. *)
Theorem loadConfig_is_ignored (P : Platform) (req : Request)
  (lc : option LoadConfig) (t : list event) :
  prepare P (with_loadConfig lc req) t = prepare P req t /\
  provider_reply P (with_loadConfig lc req) t = provider_reply P req t /\
  serve P (with_loadConfig lc req) = serve P req.
Proof.
  assert (H : forall t', prepare P (with_loadConfig lc req) t' = prepare P req t').
  { intros t'. unfold prepare, with_loadConfig. cbn [req_json].
    destruct (req_json req) as [e|b]; reflexivity. }
  assert (G : forall t', provider_reply P (with_loadConfig lc req) t'
                         = provider_reply P req t').
  { intros t'. now rewrite !provider_reply_unfold, H. }
  split; [apply H|]. split; [apply G|].
  unfold serve, handler. cbn [with_loadConfig req_method].
  destruct (str_eqb (req_method req) (lit "OPTIONS")); [reflexivity|].
  unfold try_catch. now rewrite !main_unfold, !candidate_unfold, G.
Qed.

(** ** Missing keys and provider failures (C6, C7) *)

(** C6, as the specification states it, fails when the HAR content does
    not decode: the Google key is absent and Google is selected, but the
    error reported is the one of [JSON.parse]. *)
Lemma parse_error_masks_missing_key :
  let P := demo_platform no_keys bad_reply JNull in
  let b := demo_body (HarString (lit "not json")) (Some google) in
  required_key P b = None /\
  serve P (post b) =
    (inr (error_response syntax_error),
     [ConsoleLog [LStr (lit "Processing HAR file with OpenAI...")];
      ConsoleError [LStr (lit "Error in har-to-jmeter function:");
                    LExn syntax_error]]) /\
  message syntax_error <> key_message b.
Proof.
  repeat split. vm_compute. discriminate.
Qed.

(** C6, amended: for every request other than a preflight whose body
    decodes and selects a provider whose required key is absent from the
    environment, no outbound HTTP call is attempted and the response is
    HTTP 500.  When the HAR content is a HAR document (an object with
    [log.entries], or a string that parses to one), the error reported is
    the configuration error (key not configured) of that provider; when
    decoding it throws instead (lines 54-57: [JSON.parse] rejects the
    string, or the parsed value has no [log.entries]), the error reported
    is that exception, with its message and stack. *)
Theorem missing_key_no_call (P : Platform) (req : Request) (b : RequestBody) :
  str_eqb (req_method req) (lit "OPTIONS") = false ->
  req_json req = inr b ->
  required_key P b = None ->
  exists resp tr,
    serve P req = (inr resp, tr) /\
    resp_status resp = 500%Z /\
    (forall fr, ~ In (Fetch fr) tr) /\
    (forall har, decode_har P (harContent b) = inr har ->
       resp_body resp = BodyError (key_message b) (stack_trace P (key_message b))) /\
    (forall e, decode_har P (harContent b) = inl e ->
       resp_body resp = BodyError (message e) (stack e)).
Proof.
  intros Hm Hb Hk.
  rewrite (serve_unfold P req Hm), main_unfold, candidate_unfold,
    provider_reply_unfold.
  destruct (decode_har P (harContent b)) as [e|har] eqn:Eh.
  - rewrite (prepare_har_error P req b e [] Hb Eh).
    eexists _, _. split; [reflexivity|]. split; [reflexivity|]. split; [|split].
    + intros fr [H|[H|[]]]; discriminate H.
    + discriminate.
    + now intros e' [= <-].
  - rewrite (prepare_ok P req b har [] Hb Eh).
    cbn [context_of ctx_provider jmxPrompt].
    rewrite (call_provider_missing P b _ _ Hk).
    eexists _, _. split; [reflexivity|]. split; [reflexivity|]. split; [|split].
    + intros fr [H|[H|[H|[]]]]; discriminate H.
    + intros har' _. reflexivity.
    + discriminate.
Qed.

Lemma missing_key_no_call_witness :
  (exists resp tr,
     serve (demo_platform no_keys bad_reply JNull)
           (post (demo_body (HarObject demo_har) (Some google)))
     = (inr resp, tr) /\
     resp_status resp = 500%Z /\
     (forall fr, ~ In (Fetch fr) tr) /\
     resp_body resp =
     BodyError (lit "Google AI API key not configured")
               (lit "Error: Google AI API key not configured")) /\
  (exists resp tr,
     serve (demo_platform no_keys bad_reply JNull)
           (post (demo_body (HarString (lit "not json")) (Some google)))
     = (inr resp, tr) /\
     resp_status resp = 500%Z /\
     (forall fr, ~ In (Fetch fr) tr) /\
     resp_body resp = BodyError (message syntax_error) (stack syntax_error)).
Proof.
  split.
  - destruct (missing_key_no_call
                (demo_platform no_keys bad_reply JNull)
                (post (demo_body (HarObject demo_har) (Some google)))
                (demo_body (HarObject demo_har) (Some google))
                eq_refl eq_refl eq_refl)
      as [resp [tr [Hs [H500 [Hf [Hk _]]]]]].
    exists resp, tr. repeat split; try assumption.
    exact (Hk demo_har eq_refl).
  - destruct (missing_key_no_call
                (demo_platform no_keys bad_reply JNull)
                (post (demo_body (HarString (lit "not json")) (Some google)))
                (demo_body (HarString (lit "not json")) (Some google))
                eq_refl eq_refl eq_refl)
      as [resp [tr [Hs [H500 [Hf [_ He]]]]]].
    exists resp, tr. repeat split; try assumption.
    exact (He syntax_error eq_refl).
Defined.

(** C7: when the provider answers with a status outside 200-299, the
    invocation fails: the response is HTTP 500 with an error body, hence
    without [jmxContent], whose message names the provider and carries the
    status text of the reply; the raw body of the reply appears in the
    trace, as an argument of [console.error], and nowhere in the
    response. *)
Theorem upstream_error (P : Platform) (req : Request) (c : Context)
  (r : ProviderResponse) (t : list event) :
  str_eqb (req_method req) (lit "OPTIONS") = false ->
  provider_reply P req [] = (inr (c, r), t) ->
  ok r = false ->
  let p := ctx_provider c in
  let cause := p ++ lit " API error: " ++ statusText r in
  let msg := lit "Failed to generate JMX file using AI: " ++ cause in
  serve P req =
  (inr {| resp_status := 500;
          resp_headers := jsonHeaders;
          resp_body := BodyError msg (stack_trace P msg) |},
   t ++ [ ConsoleError [LStr (p ++ lit " API error:"); LStr (body_text r)];
          ConsoleError [LStr (lit "Error generating JMX with " ++ p ++ lit ":");
                        LExn (new_Error P cause)];
          ConsoleError [LStr (lit "Error in har-to-jmeter function:");
                        LExn (new_Error P msg)] ]).
Proof.
  intros Hm Hr Hok p cause msg.
  rewrite (serve_unfold P req Hm), main_unfold, candidate_unfold, Hr.
  cbn [fst snd]. rewrite (read_jmx_not_ok P _ r t Hok).
  unfold error_response, new_Error. cbn [message stack].
  rewrite <- !app_assoc. reflexivity.
Qed.

Lemma upstream_error_witness :
  exists c t,
    provider_reply (demo_platform all_keys bad_reply JNull)
                   (post (demo_body (HarObject demo_har) None)) []
    = (inr (c, bad_reply), t) /\
    fst (serve (demo_platform all_keys bad_reply JNull)
               (post (demo_body (HarObject demo_har) None)))
    = inr {| resp_status := 500;
             resp_headers := jsonHeaders;
             resp_body :=
               BodyError
                 (lit "Failed to generate JMX file using AI: openai API error: Too Many Requests")
                 (lit "Error: Failed to generate JMX file using AI: openai API error: Too Many Requests") |}.
Proof.
  eexists _, _. split; [reflexivity|].
  rewrite (upstream_error
             (demo_platform all_keys bad_reply JNull)
             (post (demo_body (HarObject demo_har) None))
             _ bad_reply _ eq_refl eq_refl eq_refl).
  reflexivity.
Defined.

(** ** Validation of the candidate (C2) *)

(** C2: for every invocation that reaches a candidate artifact [j], a
    successful response carries exactly [j] as [jmxContent], and then [j]
    is not empty and contains [<jmeterTestPlan]; when [j] is empty or
    lacks that substring, the invocation fails with the error whose
    message is [AI did not generate valid JMeter XML content], returned
    as HTTP 500. *)
Theorem validation_gate (P : Platform) (req : Request) (c : Context)
  (j : jsstring) (t : list event) :
  str_eqb (req_method req) (lit "OPTIONS") = false ->
  candidate P req [] = (inr (c, j), t) ->
  (forall resp tr j' md sm,
     serve P req = (inr resp, tr) -> resp_body resp = BodySuccess j' md sm ->
     j' = j /\ j <> [] /\ includes j root_marker = true)
  /\
  (j = [] \/ includes j root_marker = false ->
   exists tr,
     serve P req =
     (inr {| resp_status := 500;
             resp_headers := jsonHeaders;
             resp_body :=
               BodyError
                 (lit "AI did not generate valid JMeter XML content")
                 (stack_trace P
                    (lit "AI did not generate valid JMeter XML content")) |},
      tr)).
Proof.
  intros Hm Hc. rewrite (serve_unfold P req Hm), main_unfold, Hc.
  cbn [fst snd]. split.
  - intros resp tr j' md sm Hs Hb.
    destruct (respond P c j t) as [[e|r] t'] eqn:Er.
    + injection Hs as <- _. discriminate Hb.
    + injection Hs as -> _.
      apply respond_ok in Er as [Hv [hosts [_ ->]]].
      cbn [resp_body] in Hb. injection Hb as <- _ _.
      split; [reflexivity|].
      destruct (invalid_jmx j) eqn:Ev; [discriminate|].
      unfold invalid_jmx in Ev. apply orb_false_iff in Ev as [E1 E2].
      apply negb_false_iff in E2. split; [|exact E2].
      intros ->. discriminate E1.
  - intros Hj. apply invalid_jmx_true in Hj.
    rewrite (respond_invalid P c j t Hj). eexists. reflexivity.
Qed.

Lemma validation_gate_witness :
  exists c t,
    candidate (demo_platform all_keys (ok_reply (lit "{}"))
                 (openai_reply (lit "Sorry, I cannot help with that.")))
              (post (demo_body (HarObject demo_har) None)) []
    = (inr (c, lit "Sorry, I cannot help with that."), t) /\
    exists tr,
      serve (demo_platform all_keys (ok_reply (lit "{}"))
               (openai_reply (lit "Sorry, I cannot help with that.")))
            (post (demo_body (HarObject demo_har) None))
      = (inr {| resp_status := 500;
                resp_headers := jsonHeaders;
                resp_body :=
                  BodyError
                    (lit "AI did not generate valid JMeter XML content")
                    (lit "Error: AI did not generate valid JMeter XML content") |},
         tr).
Proof.
  eexists _, _. split; [reflexivity|].
  apply (validation_gate
           (demo_platform all_keys (ok_reply (lit "{}"))
              (openai_reply (lit "Sorry, I cannot help with that.")))
           (post (demo_body (HarObject demo_har) None))
           _ (lit "Sorry, I cannot help with that.") _ eq_refl eq_refl).
  right. reflexivity.
Defined.

(** ** The summary (C3, C4) *)

Lemma mem_In (x : jsstring) (l : list jsstring) : mem x l = true <-> In x l.
Proof.
  unfold mem. rewrite existsb_exists. split.
  - intros [y [Hy E]]. apply str_eqb_eq in E. now subst.
  - intros H. exists x. split; [exact H|apply str_eqb_refl].
Qed.

Lemma Set_add_NoDup (acc : list jsstring) (x : jsstring) :
  NoDup acc -> NoDup (Set_add acc x).
Proof.
  intros H. unfold Set_add. destruct (mem x acc) eqn:E; [exact H|].
  apply NoDup_app; [exact H|constructor; [intros []|constructor]|].
  intros y Hy [<-|[]]. apply mem_In in Hy. congruence.
Qed.

Lemma Set_add_In (acc : list jsstring) (x y : jsstring) :
  In y (Set_add acc x) <-> In y acc \/ y = x.
Proof.
  unfold Set_add. destruct (mem x acc) eqn:E.
  - apply mem_In in E. split; [auto|]. intros [H| ->]; assumption.
  - rewrite in_app_iff. cbn. intuition.
Qed.

Lemma fold_Set_add_NoDup (xs acc : list jsstring) :
  NoDup acc -> NoDup (fold_left Set_add xs acc).
Proof.
  revert acc; induction xs as [|x xs IH]; intros acc H; [exact H|].
  cbn [fold_left]. apply IH. now apply Set_add_NoDup.
Qed.

Lemma fold_Set_add_In (xs acc : list jsstring) (y : jsstring) :
  In y (fold_left Set_add xs acc) <-> In y acc \/ In y xs.
Proof.
  revert acc; induction xs as [|x xs IH]; intros acc; cbn [fold_left In].
  - intuition.
  - rewrite IH, Set_add_In. intuition.
Qed.

(** [[...new Set(xs)]] has no duplicates and the elements of [xs]. *)
Lemma distinct_NoDup (xs : list jsstring) : NoDup (distinct xs).
Proof. apply fold_Set_add_NoDup. constructor. Qed.

Lemma distinct_In (xs : list jsstring) (y : jsstring) :
  In y (distinct xs) <-> In y xs.
Proof. unfold distinct. rewrite fold_Set_add_In. cbn. intuition. Qed.

Lemma Forall2_In_right {A B} (R : A -> B -> Prop) (l : list A) (l' : list B)
  (y : B) :
  Forall2 R l l' -> In y l' -> exists x, In x l /\ R x y.
Proof.
  induction 1 as [|a b l l' Hab _ IH]; [intros []|].
  intros [<-|H].
  - exists a. split; [now left|exact Hab].
  - destruct (IH H) as [x [Hx Hr]]. exists x. split; [now right|exact Hr].
Qed.

Lemma Forall2_In_left {A B} (R : A -> B -> Prop) (l : list A) (l' : list B)
  (x : A) :
  Forall2 R l l' -> In x l -> exists y, In y l' /\ R x y.
Proof.
  induction 1 as [|a b l l' Hab _ IH]; [intros []|].
  intros [<-|H].
  - exists b. split; [now left|exact Hab].
  - destruct (IH H) as [y [Hy Hr]]. exists y. split; [now right|exact Hr].
Qed.

(** The summary of a successful response, in terms of the decoded HAR
    document. *)
Lemma summary_inv (P : Platform) (req : Request) (b : RequestBody)
  (har : HarFile) (resp : Response) (tr : list event) (j : jsstring)
  (md : Metadata) (sm : Summary) :
  req_json req = inr b ->
  decode_har P (harContent b) = inr har ->
  serve P req = (inr resp, tr) ->
  resp_body resp = BodySuccess j md sm ->
  exists hosts,
    Forall2 (fun e h => URL_hostname P (url (request e)) = inr h)
            (entries (log har)) hosts /\
    sm = {| totalRequests := List.length (entries (log har));
            uniqueDomains := distinct hosts;
            methodsUsed :=
              distinct (map (fun e => method (request e)) (entries (log har)));
            avgResponseTime := average (entries (log har)) |}.
Proof.
  intros Hb Hh Hs Hbody.
  destruct (success_inv P req resp tr j md sm Hs Hbody)
    as [c [j' [t [t' [Hc Hr]]]]].
  apply (candidate_context P req b har c j' [] t Hb Hh) in Hc. subst c.
  apply respond_ok in Hr as [_ [hosts [HF ->]]].
  cbn [resp_body context_of ctx_entries] in *.
  injection Hbody as _ _ <-. now exists hosts.
Qed.

(** C3: for a HAR document with N entries, the summary of the successful
    response has [totalRequests] equal to N, [uniqueDomains] equal to the
    set of the host names of the request URLs of the entries (without
    duplicates), and [methodsUsed] equal to the set of the methods of the
    entries (without duplicates). *)
Theorem summary_counts (P : Platform) (req : Request) (b : RequestBody)
  (har : HarFile) (resp : Response) (tr : list event) (j : jsstring)
  (md : Metadata) (sm : Summary) :
  req_json req = inr b ->
  decode_har P (harContent b) = inr har ->
  serve P req = (inr resp, tr) ->
  resp_body resp = BodySuccess j md sm ->
  totalRequests sm = List.length (entries (log har)) /\
  NoDup (uniqueDomains sm) /\
  (forall h, In h (uniqueDomains sm) <->
             exists e, In e (entries (log har))
                       /\ URL_hostname P (url (request e)) = inr h) /\
  NoDup (methodsUsed sm) /\
  (forall m, In m (methodsUsed sm) <->
             exists e, In e (entries (log har)) /\ method (request e) = m).
Proof.
  intros Hb Hh Hs Hbody.
  destruct (summary_inv P req b har resp tr j md sm Hb Hh Hs Hbody)
    as [hosts [HF ->]].
  cbn [totalRequests uniqueDomains methodsUsed].
  split; [reflexivity|]. split; [apply distinct_NoDup|]. split; [|split].
  - intros h. rewrite distinct_In. split.
    + intros H. exact (Forall2_In_right _ _ _ h HF H).
    + intros [e [He Hu]].
      destruct (Forall2_In_left _ _ _ e HF He) as [h' [Hh' Hu']].
      rewrite Hu in Hu'. now injection Hu' as ->.
  - apply distinct_NoDup.
  - intros m. rewrite distinct_In, in_map_iff. split.
    + intros [e [He Hi]]. now exists e.
    + intros [e [He Hm]]. now exists e.
Qed.

Lemma summary_counts_witness :
  exists resp tr j md sm,
    serve (demo_platform all_keys (ok_reply (lit "{}")) (openai_reply good_text))
          (post (demo_body (HarObject demo_har) None))
    = (inr resp, tr) /\
    resp_body resp = BodySuccess j md sm /\
    totalRequests sm = 3 /\
    uniqueDomains sm = [lit "a.example"; lit "b.example"] /\
    methodsUsed sm = [lit "GET"; lit "POST"] /\
    NoDup (uniqueDomains sm) /\
    (forall h, In h (uniqueDomains sm) <->
               exists e, In e (entries (log demo_har))
                         /\ demo_hostname (url (request e)) = inr h).
Proof.
  eexists _, _, _, _, _. split; [reflexivity|]. split; [reflexivity|].
  split; [reflexivity|]. split; [reflexivity|]. split; [reflexivity|].
  pose proof (summary_counts
                (demo_platform all_keys (ok_reply (lit "{}"))
                   (openai_reply good_text))
                (post (demo_body (HarObject demo_har) None))
                (demo_body (HarObject demo_har) None) demo_har
                _ _ _ _ _ eq_refl eq_refl eq_refl eq_refl) as [_ [H1 [H2 _]]].
  split; [exact H1|exact H2].
Defined.

Example average_demo : average (entries (log demo_har)) = 20%float.
Proof. reflexivity. Qed.

(** The primitive operations of line 203 against their specification. *)
Lemma sum_of_times_spec (es : list HarEntry) (acc : number) :
  Prim2SF (fold_left (fun sum e => (sum + time e)%float) es acc)
  = fold_left SF64add (map (fun e => Prim2SF (time e)) es) (Prim2SF acc).
Proof.
  revert acc; induction es as [|e es IH]; intros acc; [reflexivity|].
  cbn [fold_left map]. now rewrite IH, FloatAxioms.add_spec.
Qed.

(** [entries.length] is converted to the nearest binary64 number. *)
Lemma number_of_nat_spec (n : nat) :
  (Z.of_nat n < 2 ^ 63)%Z ->
  Prim2SF (number_of_nat n) = binary_normalize prec emax (Z.of_nat n) 0 false.
Proof.
  intros H. unfold number_of_nat. rewrite FloatAxioms.of_uint63_spec.
  rewrite Uint63.of_Z_spec, Z.mod_small; [reflexivity|].
  change wB with (2 ^ 63)%Z. lia.
Qed.

Lemma average_spec (es : list HarEntry) :
  (Z.of_nat (List.length es) < 2 ^ 63)%Z ->
  Prim2SF (average es)
  = ieee_mean (map (fun e => Prim2SF (time e)) es) (List.length es).
Proof.
  intros H. unfold average, ieee_mean.
  rewrite FloatAxioms.div_spec, sum_of_times_spec, (number_of_nat_spec _ H).
  reflexivity.
Qed.

(** C4, as the specification states it, fails: the value is not the
    arithmetic mean in general.  For two entries of 2^1023 ms the sum
    overflows and the value is Infinity, although the mean, 2^1023, is a
    binary64 number; for entries of 1 ms and 2^-53 ms the sum is rounded
    to 1 and the value is 0.5, which is not their mean. *)
Lemma average_is_not_the_exact_mean :
  (exists resp tr j md sm,
     serve (demo_platform all_keys (ok_reply (lit "{}")) (openai_reply good_text))
           (post (demo_body (HarObject huge_har) None))
     = (inr resp, tr) /\
     resp_body resp = BodySuccess j md sm /\
     avgResponseTime sm = infinity /\
     exact_sum (map time (entries (log huge_har))) <> None /\
     is_exact_mean 0x1p1023%float (map time (entries (log huge_har))) = true /\
     is_exact_mean (avgResponseTime sm) (map time (entries (log huge_har)))
     = false) /\
  (exists resp tr j md sm,
     serve (demo_platform all_keys (ok_reply (lit "{}")) (openai_reply good_text))
           (post (demo_body (HarObject tiny_har) None))
     = (inr resp, tr) /\
     resp_body resp = BodySuccess j md sm /\
     avgResponseTime sm = 0.5%float /\
     exact_sum (map time (entries (log tiny_har))) <> None /\
     is_exact_mean (avgResponseTime sm) (map time (entries (log tiny_har)))
     = false).
Proof.
  split; eexists _, _, _, _, _;
    (split; [reflexivity|]); (split; [reflexivity|]);
    repeat (split; [vm_compute; first [reflexivity | discriminate]|]);
    vm_compute; reflexivity.
Qed.

(** C4, amended: the [avgResponseTime] of the successful response is the
    IEEE 754 binary64 quotient of the binary64 sum of the [time] fields
    of the entries, added to +0 in the order of the entries, by their
    number N (N below 2^63, as every array length is): the arithmetic
    mean up to the rounding of each operation, and not the exact mean in
    general.  For a document without entries the division is 0/0 and the
    value is NaN: the case is not guarded. *)
Theorem average_response_time (P : Platform) (req : Request) (b : RequestBody)
  (har : HarFile) (resp : Response) (tr : list event) (j : jsstring)
  (md : Metadata) (sm : Summary) :
  req_json req = inr b ->
  decode_har P (harContent b) = inr har ->
  serve P req = (inr resp, tr) ->
  resp_body resp = BodySuccess j md sm ->
  (Z.of_nat (List.length (entries (log har))) < 2 ^ 63)%Z ->
  Prim2SF (avgResponseTime sm)
  = ieee_mean (map (fun e => Prim2SF (time e)) (entries (log har)))
              (List.length (entries (log har))) /\
  (entries (log har) = [] -> PrimFloat.is_nan (avgResponseTime sm) = true).
Proof.
  intros Hb Hh Hs Hbody Hn.
  destruct (summary_inv P req b har resp tr j md sm Hb Hh Hs Hbody)
    as [hosts [_ ->]].
  cbn [avgResponseTime]. split; [exact (average_spec _ Hn)|].
  intros ->. reflexivity.
Qed.

Lemma average_response_time_witness :
  (exists resp tr j md sm,
     serve (demo_platform all_keys (ok_reply (lit "{}")) (openai_reply good_text))
           (post (demo_body (HarObject demo_har) None))
     = (inr resp, tr) /\
     resp_body resp = BodySuccess j md sm /\
     totalRequests sm = 3 /\
     Prim2SF (avgResponseTime sm)
     = ieee_mean [Prim2SF 10; Prim2SF 20; Prim2SF 30] 3 /\
     avgResponseTime sm = 20%float) /\
  (exists resp tr j md sm,
     serve (demo_platform all_keys (ok_reply (lit "{}")) (openai_reply good_text))
           (post (demo_body (HarObject empty_har) None))
     = (inr resp, tr) /\
     resp_body resp = BodySuccess j md sm /\
     totalRequests sm = 0 /\
     PrimFloat.is_nan (avgResponseTime sm) = true).
Proof.
  split.
  - eexists _, _, _, _, _. split; [reflexivity|]. split; [reflexivity|].
    split; [reflexivity|]. split; [|reflexivity].
    apply (average_response_time
             (demo_platform all_keys (ok_reply (lit "{}"))
                (openai_reply good_text))
             (post (demo_body (HarObject demo_har) None))
             (demo_body (HarObject demo_har) None) demo_har
             _ _ _ _ _ eq_refl eq_refl eq_refl eq_refl eq_refl).
  - eexists _, _, _, _, _. split; [reflexivity|]. split; [reflexivity|].
    split; [reflexivity|].
    apply (average_response_time
             (demo_platform all_keys (ok_reply (lit "{}"))
                (openai_reply good_text))
             (post (demo_body (HarObject empty_har) None))
             (demo_body (HarObject empty_har) None) empty_har
             _ _ _ _ _ eq_refl eq_refl eq_refl eq_refl eq_refl).
    reflexivity.
Defined.

(** ** Further properties of the handler: the trace of an invocation *)

Lemma fetches_app (a b : list event) : fetches (a ++ b) = fetches a ++ fetches b.
Proof.
  induction a as [|x a IH]; [reflexivity|].
  destruct x; cbn [app fetches]; now rewrite IH.
Qed.

Lemma lift_run {A} (r : exn + A) (t : list event) : lift r t = (r, t).
Proof. destruct r; reflexivity. Qed.

Lemma prepare_fetches (P : Platform) (req : Request) (t : list event) :
  fetches (snd (prepare P req t)) = fetches t.
Proof.
  destruct (req_json req) as [e|b] eqn:Eb.
  - now rewrite (prepare_body_error P req e t Eb).
  - destruct (decode_har P (harContent b)) as [e|har] eqn:Eh.
    + rewrite (prepare_har_error P req b e t Eb Eh). cbn [snd].
      rewrite fetches_app. cbn. apply app_nil_r.
    + rewrite (prepare_ok P req b har t Eb Eh). cbn [snd].
      rewrite !fetches_app. cbn. now rewrite !app_nil_r.
Qed.

(** The reply is probed without any effect. *)
Lemma extract_run (P : Platform) (p : jsstring) (jd : json) (t : list event) :
  jd <> JNull ->
  extract P p jd t =
  (if truthy (reply_text p jd)
   then match reply_text p jd with
        | Some (JStr s) => inr (jmx_from_text s)
        | _ => inl (raise_TypeError P (NotAFunction (lit "aiText.match")))
        end
   else inr [],
   t).
Proof.
  intros Hn. unfold extract, reply_text, member, bind.
  destruct (str_eqb p google); destruct jd; try contradiction; cbn [ret];
    match goal with
    | |- context [truthy ?v] =>
        destruct (truthy v); [|reflexivity];
        unfold jmx_of_truthy; destruct v as [[]|]; reflexivity
    end.
Qed.

Lemma extract_null (P : Platform) (p : jsstring) (t : list event) :
  exists k, extract P p JNull t
            = (inl (raise_TypeError P (ReadPropertyOfNull k)), t).
Proof.
  unfold extract, member, bind. destruct (str_eqb p google); eexists; reflexivity.
Qed.

Lemma extract_trace (P : Platform) (p : jsstring) (jd : json) (t : list event) :
  snd (extract P p jd t) = t.
Proof.
  destruct jd; try (rewrite extract_run by discriminate; reflexivity).
  destruct (extract_null P p t) as [k ->]. reflexivity.
Qed.

(** The inner [try] of lines 146-183 on a reply with a status in
    200-299. *)
Lemma read_jmx_ok_run (P : Platform) (p : jsstring) (r : ProviderResponse)
  (t : list event) :
  ok r = true ->
  read_jmx P p r t =
  match JSON_parse P (body_text r) with
  | inl e =>
      (inl (new_Error P (lit "Failed to generate JMX file using AI: " ++ message e)),
       t ++ [ConsoleError [LStr (lit "Error generating JMX with " ++ p ++ lit ":");
                           LExn e]])
  | inr jd =>
      let t1 := t ++ [ConsoleLog [LStr (p ++ lit " JMX Generation Response received")]] in
      match fst (extract P p jd t1) with
      | inr j => (inr j, t1)
      | inl e =>
          (inl (new_Error P (lit "Failed to generate JMX file using AI: "
                             ++ message e)),
           t1 ++ [ConsoleError [LStr (lit "Error generating JMX with " ++ p ++ lit ":");
                                LExn e]])
      end
  end.
Proof.
  intros Hok. unfold read_jmx, try_catch. rewrite Hok. cbn [negb].
  unfold bind at 1. rewrite lift_run.
  destruct (JSON_parse P (body_text r)) as [e|jd]; [reflexivity|].
  unfold bind at 1. cbn [console_log emit].
  pose proof (extract_trace P p jd
    (t ++ [ConsoleLog [LStr (p ++ lit " JMX Generation Response received")]])) as Ht.
  cbv zeta.
  destruct (extract P p jd _) as [[e|j] t'']; cbn [fst snd] in *; subst t'';
    reflexivity.
Qed.

Lemma read_jmx_fetches (P : Platform) (p : jsstring) (r : ProviderResponse)
  (t : list event) :
  fetches (snd (read_jmx P p r t)) = fetches t.
Proof.
  destruct (ok r) eqn:Hok.
  - rewrite (read_jmx_ok_run P p r t Hok).
    destruct (JSON_parse P (body_text r)) as [e|jd].
    + cbn [snd]. rewrite fetches_app. cbn. apply app_nil_r.
    + cbv zeta. destruct (fst (extract P p jd _)); cbn [snd];
        rewrite !fetches_app; cbn; now rewrite !app_nil_r.
  - rewrite (read_jmx_not_ok P p r t Hok). cbn [snd].
    rewrite !fetches_app. cbn. now rewrite !app_nil_r.
Qed.

(** The errors of the inner [try] are logged and thrown again under the
    prefix of line 182. *)
Lemma read_jmx_error (P : Platform) (p : jsstring) (r : ProviderResponse)
  (t t' : list event) (e : exn) :
  read_jmx P p r t = (inl e, t') ->
  exists e0,
    e = new_Error P (lit "Failed to generate JMX file using AI: " ++ message e0) /\
    In (ConsoleError [LStr (lit "Error generating JMX with " ++ p ++ lit ":");
                      LExn e0]) t'.
Proof.
  unfold read_jmx, try_catch.
  match goal with |- context [match ?m t with _ => _ end] =>
    destruct (m t) as [[e0|j] t0] end; [|discriminate].
  unfold bind. cbn [console_error emit throw]. intros [= <- <-].
  exists e0. split; [reflexivity|]. apply in_or_app. right. now left.
Qed.

Lemma respond_trace (P : Platform) (c : Context) (j : jsstring)
  (t : list event) :
  snd (respond P c j t) =
  if invalid_jmx j then t
  else t ++ [ConsoleLog [LStr (lit "JMeter XML generated successfully")]].
Proof.
  unfold respond. destruct (invalid_jmx j); [reflexivity|].
  unfold bind at 1. cbn [console_log emit]. unfold bind at 1.
  destruct (mapM_lift (fun e => URL_hostname P (url (request e)))
              (ctx_entries c)
              (t ++ [ConsoleLog [LStr (lit "JMeter XML generated successfully")]]))
    as [[e He]|[hosts [Hh _]]]; [rewrite He|rewrite Hh]; reflexivity.
Qed.

(** Only lines 101-143 call a provider. *)
Lemma serve_fetches (P : Platform) (req : Request) :
  str_eqb (req_method req) (lit "OPTIONS") = false ->
  fetches (snd (serve P req)) = fetches (snd (provider_reply P req [])).
Proof.
  intros Hm. rewrite (serve_unfold P req Hm), main_unfold, candidate_unfold.
  destruct (provider_reply P req []) as [[e|[c r]] t].
  - cbn [snd]. rewrite fetches_app. cbn. apply app_nil_r.
  - cbn [fst snd]. pose proof (read_jmx_fetches P (ctx_provider c) r t) as Hr.
    destruct (read_jmx P (ctx_provider c) r t) as [[e|j] t']; cbn [snd] in Hr.
    + cbn [snd]. rewrite fetches_app, Hr. cbn. apply app_nil_r.
    + cbn [fst snd]. pose proof (respond_trace P c j t') as Ht.
      destruct (respond P c j t') as [[e|resp] t'']; cbn [snd] in *; subst t'';
        destruct (invalid_jmx j); rewrite ?fetches_app, Hr; cbn;
        now rewrite ?app_nil_r.
Qed.

(** Lines 49-143, case by case: either no provider is called, or exactly
    one request is sent and its outcome decides. *)
Lemma provider_reply_cases (P : Platform) (req : Request) :
  (exists e t, provider_reply P req [] = (inl e, t) /\ fetches t = []) \/
  (exists b har key fr,
     req_json req = inr b /\
     decode_har P (harContent b) = inr har /\
     required_key P b = Some key /\ key <> [] /\
     sent_to (selected b) key (prompt_template ++ JSON_stringify_har P har) fr /\
     provider_reply P req [] =
     (match fetch P fr with
      | inl e => inl e
      | inr r => inr (context_of P b har, r)
      end,
      prepare_log har ++ [Fetch fr])).
Proof.
  rewrite provider_reply_unfold.
  destruct (req_json req) as [e|b] eqn:Eb.
  { left. rewrite (prepare_body_error P req e [] Eb). now exists e, []. }
  destruct (decode_har P (harContent b)) as [e|har] eqn:Eh.
  { left. rewrite (prepare_har_error P req b e [] Eb Eh). eexists _, _.
    split; reflexivity. }
  rewrite (prepare_ok P req b har [] Eb Eh).
  cbn [context_of ctx_provider jmxPrompt app].
  unfold call_provider, required_key, sent_to.
  destruct (str_eqb (selected b) google) eqn:Eg.
  - destruct (env_get P (lit "GOOGLE_AI_API_KEY")) as [[|x k]|] eqn:Ek;
      cbn [missing].
    + left. eexists _, _. split; reflexivity.
    + right.
      match goal with
      | |- context [do_fetch P ?r] => exists b, har, (x :: k), r
      end.
      rewrite Eg.
      split; [reflexivity|]. split; [exact Eh|]. split; [reflexivity|].
      split; [discriminate|].
      match goal with |- ?A /\ ?B => assert (HB : B); [|split; [|exact HB]] end.
      * unfold do_fetch, bind. cbn [emit]. rewrite lift_run.
        destruct (fetch P _); reflexivity.
      * repeat split.
    + left. eexists _, _. split; reflexivity.
  - destruct (openAIApiKey P) as [[|x k]|] eqn:Ek; cbn [missing].
    + left. eexists _, _. split; reflexivity.
    + right.
      match goal with
      | |- context [do_fetch P ?r] => exists b, har, (x :: k), r
      end.
      rewrite Eg.
      split; [reflexivity|]. split; [exact Eh|]. split; [reflexivity|].
      split; [discriminate|].
      match goal with |- ?A /\ ?B => assert (HB : B); [|split; [|exact HB]] end.
      * unfold do_fetch, bind. cbn [emit]. rewrite lift_run.
        destruct (fetch P _); reflexivity.
      * repeat split.
    + left. eexists _, _. split; reflexivity.
Qed.

Lemma fetches_prepare_log (har : HarFile) (fr : FetchRequest) :
  fetches (prepare_log har ++ [Fetch fr]) = [fr].
Proof. reflexivity. Qed.

(** X1: an invocation makes at most one outbound call: there is no retry
    and no second provider. *)
Theorem single_outbound_call (P : Platform) (req : Request) :
  List.length (fetches (snd (serve P req))) <= 1.
Proof.
  destruct (str_eqb (req_method req) (lit "OPTIONS")) eqn:Em.
  - unfold serve, handler. rewrite Em. cbn. lia.
  - rewrite (serve_fetches P req Em).
    destruct (provider_reply_cases P req)
      as [[e [t [Hr Hf]]]|[b [har [key [fr [_ [_ [_ [_ [_ Hr]]]]]]]]]];
      rewrite Hr; cbn [snd].
    + rewrite Hf. cbn. lia.
    + rewrite fetches_prepare_log. cbn. lia.
Qed.

(** X2: an outbound call is made only for a request whose body and HAR
    content decode and whose selected provider has a non-empty key.  It is
    a POST that carries, as prompt, the fixed template followed by the
    serialised HAR document; for the provider [google] it goes to the
    Gemini endpoint with the key in the URL and no [Authorization] header,
    for every other provider value to the OpenAI endpoint with the key as
    bearer token. *)
Theorem outbound_request_shape (P : Platform) (req : Request)
  (fr : FetchRequest) :
  In fr (fetches (snd (serve P req))) ->
  exists b har key,
    req_json req = inr b /\
    decode_har P (harContent b) = inr har /\
    required_key P b = Some key /\ key <> [] /\
    sent_to (selected b) key (prompt_template ++ JSON_stringify_har P har) fr.
Proof.
  destruct (str_eqb (req_method req) (lit "OPTIONS")) eqn:Em.
  - unfold serve, handler. rewrite Em. intros [].
  - rewrite (serve_fetches P req Em).
    destruct (provider_reply_cases P req)
      as [[e [t [Hr Hf]]]|[b [har [key [fr' [Hb [Hh [Hk [Hne [Hs Hr]]]]]]]]]];
      rewrite Hr; cbn [snd].
    + rewrite Hf. intros [].
    + rewrite fetches_prepare_log. intros [<-|[]]. now exists b, har, key.
Qed.

Lemma outbound_request_shape_witness :
  exists fr,
    In fr (fetches (snd (serve (demo_platform all_keys bad_reply JNull)
                               (post (demo_body (HarObject demo_har) None))))) /\
    exists b har key,
      req_json (post (demo_body (HarObject demo_har) None)) = inr b /\
      decode_har (demo_platform all_keys bad_reply JNull) (harContent b) = inr har /\
      required_key (demo_platform all_keys bad_reply JNull) b = Some key /\
      key <> [] /\
      sent_to (selected b) key (prompt_template ++ lit "{}") fr.
Proof.
  eexists. split; [left; reflexivity|].
  apply (outbound_request_shape
           (demo_platform all_keys bad_reply JNull)
           (post (demo_body (HarObject demo_har) None))).
  left. reflexivity.
Defined.

(** X3: a failure of the outbound call itself (the exception of [fetch])
    is reported as it is, as HTTP 500 with its own message and stack: the
    call is outside the inner [try], so the prefix of line 182 is not
    added. *)
Theorem fetch_failure_is_not_wrapped (P : Platform) (req : Request)
  (fr : FetchRequest) (e : exn) :
  In fr (fetches (snd (serve P req))) ->
  fetch P fr = inl e ->
  fst (serve P req) = inr (error_response e).
Proof.
  destruct (str_eqb (req_method req) (lit "OPTIONS")) eqn:Em.
  - unfold serve, handler. rewrite Em. intros [].
  - rewrite (serve_fetches P req Em).
    destruct (provider_reply_cases P req)
      as [[e' [t [Hr Hf]]]|[b [har [key [fr' [_ [_ [_ [_ [_ Hr]]]]]]]]]];
      rewrite Hr; cbn [snd].
    + rewrite Hf. intros [].
    + rewrite fetches_prepare_log. intros [<-|[]] He. rewrite He in Hr.
      now rewrite (serve_unfold P req Em), main_unfold, candidate_unfold, Hr.
Qed.

Lemma fetch_failure_is_not_wrapped_witness :
  fst (serve offline_platform (post (demo_body (HarObject demo_har) None)))
  = inr {| resp_status := 500;
           resp_headers := jsonHeaders;
           resp_body := BodyError (lit "error sending request")
                                  (lit "TypeError: error sending request") |}.
Proof.
  eapply (fetch_failure_is_not_wrapped offline_platform
            (post (demo_body (HarObject demo_har) None)) _ network_error).
  - left. reflexivity.
  - reflexivity.
Defined.

Lemma call_provider_not_configured (P : Platform) (b : RequestBody)
  (prompt : jsstring) (t : list event) :
  missing (required_key P b) = true ->
  call_provider P (selected b) prompt t
  = (inl (new_Error P (key_message b)), t).
Proof.
  unfold required_key, key_message, call_provider.
  destruct (str_eqb (selected b) google); intros ->; reflexivity.
Qed.

(** X4: a key that is present but empty counts as not configured: no
    outbound call is made, the response is HTTP 500 and, when the HAR
    content decodes, its error is the key-not-configured message of the
    selected provider. *)
Theorem empty_key_is_not_configured (P : Platform) (req : Request)
  (b : RequestBody) :
  str_eqb (req_method req) (lit "OPTIONS") = false ->
  req_json req = inr b ->
  required_key P b = Some [] ->
  exists resp tr,
    serve P req = (inr resp, tr) /\
    resp_status resp = 500%Z /\
    fetches tr = [] /\
    (forall har, decode_har P (harContent b) = inr har ->
       resp_body resp = BodyError (key_message b) (stack_trace P (key_message b))).
Proof.
  intros Hm Hb Hk.
  assert (Hmiss : missing (required_key P b) = true) by now rewrite Hk.
  rewrite (serve_unfold P req Hm), main_unfold, candidate_unfold,
    provider_reply_unfold.
  destruct (decode_har P (harContent b)) as [e|har] eqn:Eh.
  - rewrite (prepare_har_error P req b e [] Hb Eh).
    eexists _, _. split; [reflexivity|]. repeat split. discriminate.
  - rewrite (prepare_ok P req b har [] Hb Eh).
    cbn [context_of ctx_provider jmxPrompt].
    rewrite (call_provider_not_configured P b _ _ Hmiss).
    eexists _, _. split; [reflexivity|]. repeat split.
Qed.

Lemma empty_key_is_not_configured_witness :
  exists resp tr,
    serve (demo_platform empty_keys bad_reply JNull)
          (post (demo_body (HarObject demo_har) None))
    = (inr resp, tr) /\
    resp_status resp = 500%Z /\
    fetches tr = [] /\
    (forall har,
       decode_har (demo_platform empty_keys bad_reply JNull) (HarObject demo_har)
       = inr har ->
       resp_body resp =
       BodyError (lit "OpenAI API key not configured")
                 (lit "Error: OpenAI API key not configured")).
Proof.
  apply (empty_key_is_not_configured
           (demo_platform empty_keys bad_reply JNull)
           (post (demo_body (HarObject demo_har) None))
           (demo_body (HarObject demo_har) None));
    reflexivity.
Defined.

(** ** Further properties: the reply of the provider *)

Lemma serve_after_reply (P : Platform) (req : Request) (c : Context)
  (r : ProviderResponse) (t : list event) :
  str_eqb (req_method req) (lit "OPTIONS") = false ->
  provider_reply P req [] = (inr (c, r), t) ->
  serve P req =
  match read_jmx P (ctx_provider c) r t with
  | (inl e, t') =>
      (inr (error_response e),
       t' ++ [ConsoleError [LStr (lit "Error in har-to-jmeter function:"); LExn e]])
  | (inr j, t') =>
      match respond P c j t' with
      | (inl e, t'') =>
          (inr (error_response e),
           t'' ++ [ConsoleError [LStr (lit "Error in har-to-jmeter function:");
                                 LExn e]])
      | r' => r'
      end
  end.
Proof.
  intros Hm Hr. rewrite (serve_unfold P req Hm), main_unfold, candidate_unfold, Hr.
  cbn [fst snd]. destruct (read_jmx P (ctx_provider c) r t) as [[e|j] t'];
    [reflexivity|].
  cbn [fst snd]. destruct (respond P c j t') as [[e|r'] t'']; reflexivity.
Qed.



(** X6: when the probed text is truthy but not a string (a number, [true],
    an array of content parts, an object), [aiText.match] is not a function:
    the TypeError is caught by the inner [catch] and the invocation fails with
    HTTP 500 and the message [Failed to generate JMX file using AI: ]
    followed by the message of that TypeError; the value is never used as a
    candidate. *)
Theorem non_string_text_is_an_error (P : Platform) (req : Request)
  (c : Context) (r : ProviderResponse) (t : list event) (jd v : json) :
  str_eqb (req_method req) (lit "OPTIONS") = false ->
  provider_reply P req [] = (inr (c, r), t) ->
  ok r = true ->
  JSON_parse P (body_text r) = inr jd ->
  jd <> JNull ->
  reply_text (ctx_provider c) jd = Some v ->
  truthy (Some v) = true ->
  (forall s, v <> JStr s) ->
  fst (serve P req) =
  inr (error_response
         (new_Error P
            (lit "Failed to generate JMX file using AI: "
             ++ message (raise_TypeError P (NotAFunction (lit "aiText.match")))))).
Proof.
  intros Hm Hr Hok Hp Hn Hv Ht Hs.
  rewrite (serve_after_reply P req c r t Hm Hr).
  rewrite (read_jmx_ok_run P _ r t Hok), Hp. cbv zeta.
  rewrite (extract_run P _ jd _ Hn), Hv, Ht.
  destruct v; try reflexivity. now destruct (Hs s).
Qed.

Lemma non_string_text_is_an_error_witness :
  fst (serve (demo_platform all_keys (ok_reply (lit "{}")) parts_reply)
             (post (demo_body (HarObject demo_har) None)))
  = inr {| resp_status := 500;
           resp_headers := jsonHeaders;
           resp_body :=
             BodyError
               (lit "Failed to generate JMX file using AI: not a function or a property of null")
               (lit "Error: Failed to generate JMX file using AI: not a function or a property of null") |}.
Proof.
  rewrite (non_string_text_is_an_error
             (demo_platform all_keys (ok_reply (lit "{}")) parts_reply)
             (post (demo_body (HarObject demo_har) None))
             _ (ok_reply (lit "{}")) _ parts_reply
             (JArr [ JObj [ (lit "type", JStr (lit "text")) ] ])
             eq_refl eq_refl eq_refl eq_refl).
  - reflexivity.
  - discriminate.
  - reflexivity.
  - reflexivity.
  - discriminate.
Defined.

(** X7: once the provider has replied, an invocation either reaches a
    candidate artifact or fails with HTTP 500 and a message that starts
    with [Failed to generate JMX file using AI: ], followed by the message
    of the original error; that error is logged by [console.error] and
    its stack is not in the response. *)
Theorem reply_errors_are_wrapped (P : Platform) (req : Request)
  (c : Context) (r : ProviderResponse) (t : list event) :
  str_eqb (req_method req) (lit "OPTIONS") = false ->
  provider_reply P req [] = (inr (c, r), t) ->
  (exists j t', candidate P req [] = (inr (c, j), t')) \/
  (exists e0 tr,
     let msg := lit "Failed to generate JMX file using AI: " ++ message e0 in
     serve P req =
       (inr {| resp_status := 500;
               resp_headers := jsonHeaders;
               resp_body := BodyError msg (stack_trace P msg) |}, tr) /\
     In (ConsoleError
           [LStr (lit "Error generating JMX with " ++ ctx_provider c ++ lit ":");
            LExn e0]) tr).
Proof.
  intros Hm Hr.
  destruct (read_jmx P (ctx_provider c) r t) as [[e|j] t'] eqn:Ej.
  - right. destruct (read_jmx_error P _ r t t' e Ej) as [e0 [-> Hin]].
    exists e0. eexists. cbv zeta. split.
    + rewrite (serve_after_reply P req c r t Hm Hr), Ej. reflexivity.
    + apply in_or_app. now left.
  - left. exists j, t'. rewrite candidate_unfold, Hr. cbn [fst snd].
    now rewrite Ej.
Qed.

Lemma reply_errors_are_wrapped_witness :
  exists c t,
    provider_reply (demo_platform all_keys (ok_reply (lit "{}")) JNull)
                   (post (demo_body (HarObject demo_har) None)) []
    = (inr (c, ok_reply (lit "{}")), t) /\
    ((exists j t',
        candidate (demo_platform all_keys (ok_reply (lit "{}")) JNull)
                  (post (demo_body (HarObject demo_har) None)) []
        = (inr (c, j), t')) \/
     (exists e0 tr,
        let msg := lit "Failed to generate JMX file using AI: " ++ message e0 in
        serve (demo_platform all_keys (ok_reply (lit "{}")) JNull)
              (post (demo_body (HarObject demo_har) None))
        = (inr {| resp_status := 500;
                  resp_headers := jsonHeaders;
                  resp_body := BodyError msg (lit "Error: " ++ msg) |}, tr) /\
        In (ConsoleError
              [LStr (lit "Error generating JMX with " ++ ctx_provider c ++ lit ":");
               LExn e0]) tr)).
Proof.
  eexists _, _. split; [reflexivity|].
  apply (reply_errors_are_wrapped
           (demo_platform all_keys (ok_reply (lit "{}")) JNull)
           (post (demo_body (HarObject demo_har) None))
           _ (ok_reply (lit "{}")) _ eq_refl eq_refl).
Defined.

(** ** Further properties: the response *)

Lemma mapM_first_error {A B} (f : A -> exn + B) (good : list A) (bad : A)
  (rest : list A) (e : exn) (t : list event) :
  Forall (fun a => exists b, f a = inr b) good ->
  f bad = inl e ->
  mapM (fun a => lift (f a)) (good ++ bad :: rest) t = (inl e, t).
Proof.
  intros Hg Hb. induction Hg as [|a good [b Ha] _ IH]; cbn [app];
    rewrite mapM_cons.
  - now rewrite Hb.
  - now rewrite Ha, IH.
Qed.

Lemma candidate_fetches (P : Platform) (req : Request) (c : Context)
  (j : jsstring) (t : list event) :
  candidate P req [] = (inr (c, j), t) -> exists fr, fetches t = [fr].
Proof.
  rewrite candidate_unfold.
  destruct (provider_reply_cases P req)
    as [[e [t0 [Hr _]]]|[b [har [key [fr [_ [_ [_ [_ [_ Hr]]]]]]]]]];
    rewrite Hr; [discriminate|].
  destruct (fetch P fr) as [e|r]; [discriminate|]. cbn [fst snd].
  pose proof (read_jmx_fetches P (ctx_provider (context_of P b har)) r
                (prepare_log har ++ [Fetch fr])) as Hf.
  destruct (read_jmx P _ r _) as [[e|j'] t']; [discriminate|].
  cbn [snd] in Hf. intros [= _ _ <-]. exists fr.
  now rewrite Hf, fetches_prepare_log.
Qed.

(** X8: the host names are computed after the provider has answered and
    the candidate has passed the validation.  If the URL of some entry is
    then rejected by [new URL], the invocation fails with HTTP 500 and the
    error of the first such entry, although the provider has been called
    and [JMeter XML generated successfully] has been logged. *)
Theorem invalid_url_fails_after_the_call (P : Platform) (req : Request)
  (c : Context) (j : jsstring) (t : list event)
  (good : list HarEntry) (bad : HarEntry) (rest : list HarEntry) (e : exn) :
  str_eqb (req_method req) (lit "OPTIONS") = false ->
  candidate P req [] = (inr (c, j), t) ->
  invalid_jmx j = false ->
  ctx_entries c = good ++ bad :: rest ->
  Forall (fun x => exists h, URL_hostname P (url (request x)) = inr h) good ->
  URL_hostname P (url (request bad)) = inl e ->
  serve P req =
    (inr (error_response e),
     (t ++ [ConsoleLog [LStr (lit "JMeter XML generated successfully")]])
     ++ [ConsoleError [LStr (lit "Error in har-to-jmeter function:"); LExn e]])
  /\ exists fr, fetches t = [fr].
Proof.
  intros Hm Hc Hv He Hg Hb. split; [|exact (candidate_fetches P req c j t Hc)].
  rewrite (serve_unfold P req Hm), main_unfold, Hc. cbn [fst snd].
  unfold respond. rewrite Hv. unfold bind at 1. cbn [console_log emit].
  unfold bind at 1. rewrite He.
  rewrite (mapM_first_error (fun x => URL_hostname P (url (request x)))
             good bad rest e _ Hg Hb).
  reflexivity.
Qed.

Lemma invalid_url_fails_after_the_call_witness :
  exists c t,
    candidate (demo_platform all_keys (ok_reply (lit "{}")) (openai_reply good_text))
              (post (demo_body (HarObject bad_url_har) None)) []
    = (inr (c, lit "<jmeterTestPlan version=1.2></jmeterTestPlan>"), t) /\
    fst (serve (demo_platform all_keys (ok_reply (lit "{}")) (openai_reply good_text))
               (post (demo_body (HarObject bad_url_har) None)))
    = inr (error_response invalid_url).
Proof.
  eexists _, _. split; [reflexivity|].
  destruct (invalid_url_fails_after_the_call
              (demo_platform all_keys (ok_reply (lit "{}")) (openai_reply good_text))
              (post (demo_body (HarObject bad_url_har) None))
              _ (lit "<jmeterTestPlan version=1.2></jmeterTestPlan>") _
              [demo_entry (lit "GET") (lit "https://a.example/x") 10%float]
              (demo_entry (lit "GET") (lit "/relative/path") 20%float)
              [] invalid_url eq_refl eq_refl eq_refl eq_refl) as [H _].
  - constructor; [|constructor]. eexists. reflexivity.
  - reflexivity.
  - now rewrite H.
Defined.

(** X9: every HTTP 500 response is the error response of an exception
    that [console.error] has logged as the last event of the invocation:
    the body carries the message and the stack of that exception. *)
Theorem failures_are_logged (P : Platform) (req : Request) (resp : Response)
  (tr : list event) :
  serve P req = (inr resp, tr) ->
  resp_status resp = 500%Z ->
  exists e t,
    resp_body resp = BodyError (message e) (stack e) /\
    tr = t ++ [ConsoleError [LStr (lit "Error in har-to-jmeter function:");
                             LExn e]].
Proof.
  intros Hs H500.
  destruct (str_eqb (req_method req) (lit "OPTIONS")) eqn:Em.
  - unfold serve, handler in Hs. rewrite Em in Hs. injection Hs as <- _.
    discriminate H500.
  - rewrite (serve_unfold P req Em), main_unfold in Hs.
    destruct (candidate P req []) as [[e|[c j]] t].
    + injection Hs as <- <-. now exists e, t.
    + cbn [fst snd] in Hs. destruct (respond P c j t) as [[e|r] t'] eqn:Er.
      * injection Hs as <- <-. now exists e, t'.
      * injection Hs as -> _. apply respond_ok in Er as [_ [hosts [_ ->]]].
        discriminate H500.
Qed.

Lemma failures_are_logged_witness :
  exists resp tr e t,
    serve (demo_platform no_keys bad_reply JNull)
          (post (demo_body (HarString (lit "not json")) None))
    = (inr resp, tr) /\
    resp_body resp = BodyError (message e) (stack e) /\
    tr = t ++ [ConsoleError [LStr (lit "Error in har-to-jmeter function:");
                             LExn e]].
Proof.
  eexists _, _.
  destruct (failures_are_logged
              (demo_platform no_keys bad_reply JNull)
              (post (demo_body (HarString (lit "not json")) None))
              _ _ eq_refl eq_refl) as [e [t H]].
  exists e, t. split; [reflexivity|exact H].
Defined.

Lemma decode_of_candidate (P : Platform) (req : Request) (b : RequestBody)
  (c : Context) (j : jsstring) (t : list event) :
  req_json req = inr b ->
  candidate P req [] = (inr (c, j), t) ->
  exists har, decode_har P (harContent b) = inr har /\ c = context_of P b har.
Proof.
  intros Hb Hc. destruct (decode_har P (harContent b)) as [e|har] eqn:Eh.
  - rewrite candidate_unfold, provider_reply_unfold in Hc.
    rewrite (prepare_har_error P req b e [] Hb Eh) in Hc. discriminate.
  - exists har. split; [reflexivity|].
    exact (candidate_context P req b har c j [] t Hb Eh Hc).
Qed.

(** X10: the metadata of a successful response: the provider is labelled
    [Google AI Studio] when [aiProvider] is exactly [google] and [OpenAI]
    for every other value, [generatedByAI] is true, and [testPlanName] is
    the one of the request or, when the request has none, [HAR Performance
    Test]. *)
Theorem success_metadata (P : Platform) (req : Request) (b : RequestBody)
  (resp : Response) (tr : list event) (j : jsstring) (md : Metadata)
  (sm : Summary) :
  req_json req = inr b ->
  serve P req = (inr resp, tr) ->
  resp_body resp = BodySuccess j md sm ->
  resp_status resp = 200%Z /\
  provider md = (if str_eqb (selected b) google
                 then lit "Google AI Studio" else lit "OpenAI") /\
  generatedByAI md = true /\
  meta_testPlanName md =
    match testPlanName b with
    | Some n => n
    | None => lit "HAR Performance Test"
    end.
Proof.
  intros Hb Hs Hbody.
  destruct (success_inv P req resp tr j md sm Hs Hbody)
    as [c [j' [t [t' [Hc Hr]]]]].
  destruct (decode_of_candidate P req b c j' t Hb Hc) as [har [_ ->]].
  apply respond_ok in Hr as [_ [hosts [_ ->]]].
  cbn [resp_body] in Hbody. injection Hbody as _ <- _.
  repeat split.
Qed.

Lemma success_metadata_witness :
  exists resp tr j md sm,
    serve (demo_platform all_keys (ok_reply (lit "{}")) (openai_reply good_text))
          (post (demo_body (HarObject demo_har) (Some (lit "Google"))))
    = (inr resp, tr) /\
    resp_body resp = BodySuccess j md sm /\
    provider md = lit "OpenAI" /\
    meta_testPlanName md = lit "HAR Performance Test".
Proof.
  eexists _, _, _, _, _. split; [reflexivity|]. split; [reflexivity|].
  destruct (success_metadata
              (demo_platform all_keys (ok_reply (lit "{}")) (openai_reply good_text))
              (post (demo_body (HarObject demo_har) (Some (lit "Google"))))
              (demo_body (HarObject demo_har) (Some (lit "Google")))
              _ _ _ _ _ eq_refl eq_refl eq_refl) as [_ [H1 [_ H2]]].
  split; [exact H1|exact H2].
Defined.

(** X11: the [jmxContent] of a successful response is the extraction of
    the text of the reply: exactly one outbound call has been made, its
    reply has a status in 200-299 and parses, the probed text is a
    non-empty string, and [jmxContent] is what lines 160-165 (or 172-177)
    extract from that string. *)
Theorem success_content_is_extracted_reply (P : Platform) (req : Request)
  (b : RequestBody) (resp : Response) (tr : list event) (j : jsstring)
  (md : Metadata) (sm : Summary) :
  req_json req = inr b ->
  serve P req = (inr resp, tr) ->
  resp_body resp = BodySuccess j md sm ->
  exists fr r jd s,
    fetches tr = [fr] /\
    fetch P fr = inr r /\
    ok r = true /\
    JSON_parse P (body_text r) = inr jd /\
    reply_text (selected b) jd = Some (JStr s) /\
    s <> [] /\
    j = jmx_from_text s.
Proof.
  intros Hb Hs Hbody.
  destruct (success_inv P req resp tr j md sm Hs Hbody)
    as [c [j' [t [t' [Hc Hr]]]]].
  assert (Em : str_eqb (req_method req) (lit "OPTIONS") = false).
  { destruct (str_eqb (req_method req) (lit "OPTIONS")) eqn:Em; [|reflexivity].
    unfold serve, handler in Hs. rewrite Em in Hs. injection Hs as <- _.
    discriminate Hbody. }
  assert (Htr : fetches tr = fetches (snd (provider_reply P req []))).
  { rewrite <- (serve_fetches P req Em), Hs. reflexivity. }
  apply respond_ok in Hr as [Hv [hosts [_ ->]]].
  cbn [resp_body] in Hbody. injection Hbody as <- _ _.
  rewrite candidate_unfold in Hc.
  destruct (provider_reply_cases P req)
    as [[e [t0 [Hp _]]]|[b' [har [key [fr [Hb' [_ [_ [_ [_ Hp]]]]]]]]]];
    rewrite Hp in Hc, Htr; [discriminate|].
  rewrite Hb in Hb'. injection Hb' as <-.
  destruct (fetch P fr) as [e|r] eqn:Ef; [discriminate|].
  cbn [fst snd context_of ctx_provider] in Hc, Htr.
  rewrite fetches_prepare_log in Htr.
  destruct (ok r) eqn:Hok.
  2:{ rewrite (read_jmx_not_ok P _ r _ Hok) in Hc. discriminate. }
  rewrite (read_jmx_ok_run P _ r _ Hok) in Hc.
  destruct (JSON_parse P (body_text r)) as [e|jd] eqn:Ep; [discriminate|].
  cbv zeta in Hc.
  assert (Hn : jd <> JNull).
  { intros ->. destruct (extract_null P (selected b)
      ((prepare_log har ++ [Fetch fr])
       ++ [ConsoleLog [LStr (selected b ++ lit " JMX Generation Response received")]]))
      as [k Hk]. rewrite Hk in Hc. discriminate. }
  rewrite (extract_run P _ jd _ Hn) in Hc. cbn [fst] in Hc.
  destruct (truthy (reply_text (selected b) jd)) eqn:Ht.
  2:{ injection Hc as _ <- _. discriminate Hv. }
  destruct (reply_text (selected b) jd) as [[| | |s| |]|] eqn:Et;
    try discriminate.
  injection Hc as _ <- _. exists fr, r, jd, s.
  split; [exact Htr|]. split; [exact Ef|]. split; [exact Hok|].
  split; [exact Ep|]. split; [exact Et|]. split; [|reflexivity].
  intros ->. discriminate Ht.
Qed.

Lemma success_content_is_extracted_reply_witness :
  exists resp tr md sm fr r jd s,
    serve (demo_platform all_keys (ok_reply (lit "{}")) (google_reply good_text))
          (post (demo_body (HarObject demo_har) (Some google)))
    = (inr resp, tr) /\
    resp_body resp
    = BodySuccess (lit "<jmeterTestPlan version=1.2></jmeterTestPlan>") md sm /\
    fetches tr = [fr] /\
    fetch (demo_platform all_keys (ok_reply (lit "{}")) (google_reply good_text)) fr
    = inr r /\
    JSON_parse (demo_platform all_keys (ok_reply (lit "{}")) (google_reply good_text))
               (body_text r) = inr jd /\
    reply_text google jd = Some (JStr s) /\
    lit "<jmeterTestPlan version=1.2></jmeterTestPlan>" = jmx_from_text s.
Proof.
  eexists _, _, _, _.
  destruct (success_content_is_extracted_reply
              (demo_platform all_keys (ok_reply (lit "{}")) (google_reply good_text))
              (post (demo_body (HarObject demo_har) (Some google)))
              (demo_body (HarObject demo_har) (Some google))
              _ _ _ _ _ eq_refl eq_refl eq_refl)
    as [fr [r [jd [s [H1 [H2 [_ [H4 [H5 [_ H7]]]]]]]]]].
  exists fr, r, jd, s. split; [reflexivity|]. split; [reflexivity|].
  repeat split; assumption.
Defined.

(** ** Further properties: the summary *)

Lemma fold_Set_add_skip (x : jsstring) (xs acc : list jsstring) :
  In x acc ->
  fold_left Set_add xs acc
  = fold_left Set_add (filter (fun y => negb (str_eqb y x)) xs) acc.
Proof.
  revert acc; induction xs as [|y xs IH]; intros acc Hx; [reflexivity|].
  cbn [fold_left filter]. destruct (str_eqb y x) eqn:E; cbn [negb].
  - apply str_eqb_eq in E. subst y.
    replace (Set_add acc x) with acc; [now apply IH|].
    unfold Set_add. apply mem_In in Hx. now rewrite Hx.
  - cbn [fold_left]. apply IH. apply Set_add_In. now left.
Qed.

Lemma fold_Set_add_cons (x : jsstring) (xs acc : list jsstring) :
  ~ In x xs ->
  fold_left Set_add xs (x :: acc) = x :: fold_left Set_add xs acc.
Proof.
  revert acc; induction xs as [|y xs IH]; intros acc Hx; [reflexivity|].
  cbn [fold_left].
  assert (E : Set_add (x :: acc) y = x :: Set_add acc y).
  { unfold Set_add, mem. cbn [existsb].
    destruct (str_eqb y x) eqn:Eyx.
    - apply str_eqb_eq in Eyx. subst y. exfalso. apply Hx. now left.
    - cbn [orb]. now destruct (existsb (str_eqb y) acc). }
  rewrite E. apply IH. intros H. apply Hx. now right.
Qed.

Lemma distinct_length (xs : list jsstring) :
  List.length (distinct xs) <= List.length xs.
Proof.
  unfold distinct.
  enough (H : forall acc, List.length (fold_left Set_add xs acc)
                          <= List.length acc + List.length xs)
    by exact (H []).
  induction xs as [|x xs IH]; intros acc; cbn [fold_left List.length]; [lia|].
  specialize (IH (Set_add acc x)).
  assert (List.length (Set_add acc x) <= S (List.length acc)).
  { unfold Set_add. destruct (mem x acc); [lia|].
    rewrite length_app. cbn. lia. }
  lia.
Qed.

Lemma distinct_cons (x : jsstring) (xs : list jsstring) :
  distinct (x :: xs)
  = x :: distinct (filter (fun y => negb (str_eqb y x)) xs).
Proof.
  unfold distinct. cbn [fold_left].
  change (Set_add [] x) with [x].
  rewrite (fold_Set_add_skip x xs [x]) by now left.
  apply fold_Set_add_cons. intros H. apply filter_In in H as [_ H].
  now rewrite str_eqb_refl in H.
Qed.

(** X12: [[...new Set(xs)]] lists the elements in the order of their
    first occurrence: the first element of [xs] comes first, followed by
    the distinct elements of the rest that differ from it; and it is never
    longer than [xs]. *)
Theorem distinct_first_occurrence_order (x : jsstring) (xs : list jsstring) :
  distinct (x :: xs)
  = x :: distinct (filter (fun y => negb (str_eqb y x)) xs)
  /\ List.length (distinct (x :: xs)) <= S (List.length xs).
Proof.
  split; [apply distinct_cons|exact (distinct_length (x :: xs))].
Qed.

(** X13: in the summary of a successful response, [uniqueDomains] and
    [methodsUsed] have at most [totalRequests] elements, and for a
    document with at least one entry both start with the value of the
    first entry. *)
Theorem summary_bounds (P : Platform) (req : Request) (b : RequestBody)
  (har : HarFile) (resp : Response) (tr : list event) (j : jsstring)
  (md : Metadata) (sm : Summary) :
  req_json req = inr b ->
  decode_har P (harContent b) = inr har ->
  serve P req = (inr resp, tr) ->
  resp_body resp = BodySuccess j md sm ->
  List.length (uniqueDomains sm) <= totalRequests sm /\
  List.length (methodsUsed sm) <= totalRequests sm /\
  match entries (log har) with
  | [] => uniqueDomains sm = [] /\ methodsUsed sm = []
  | e :: _ =>
      hd_error (methodsUsed sm) = Some (method (request e)) /\
      option_map inr (hd_error (uniqueDomains sm))
      = Some (URL_hostname P (url (request e)))
  end.
Proof.
  intros Hb Hh Hs Hbody.
  destruct (summary_inv P req b har resp tr j md sm Hb Hh Hs Hbody)
    as [hosts [HF ->]].
  cbn [totalRequests uniqueDomains methodsUsed].
  pose proof (Forall2_length HF) as Hl.
  split; [rewrite Hl; apply distinct_length|].
  split; [rewrite <- (length_map (fun e => method (request e)));
          apply distinct_length|].
  destruct HF as [|e h es hs He HF].
  - split; reflexivity.
  - cbn [map].
    rewrite (distinct_cons (method (request e))
               (map (fun e => method (request e)) es)).
    rewrite (distinct_cons h hs).
    cbn [hd_error option_map]. now rewrite He.
Qed.

Lemma summary_bounds_witness :
  exists resp tr j md sm,
    serve (demo_platform all_keys (ok_reply (lit "{}")) (openai_reply good_text))
          (post (demo_body (HarObject demo_har) None))
    = (inr resp, tr) /\
    resp_body resp = BodySuccess j md sm /\
    List.length (uniqueDomains sm) <= totalRequests sm /\
    hd_error (methodsUsed sm) = Some (lit "GET").
Proof.
  eexists _, _, _, _, _. split; [reflexivity|]. split; [reflexivity|].
  destruct (summary_bounds
              (demo_platform all_keys (ok_reply (lit "{}")) (openai_reply good_text))
              (post (demo_body (HarObject demo_har) None))
              (demo_body (HarObject demo_har) None) demo_har
              _ _ _ _ _ eq_refl eq_refl eq_refl eq_refl) as [H1 [_ [H3 _]]].
  split; [exact H1|exact H3].
Defined.

(** ** Further properties: the extraction *)

Lemma skip_spaces_idem (s : jsstring) : skip_spaces (skip_spaces s) = skip_spaces s.
Proof.
  induction s as [|x s IH]; [reflexivity|]. cbn [skip_spaces].
  destruct (is_space x) eqn:E; [exact IH|]. cbn [skip_spaces]. now rewrite E.
Qed.

Lemma skip_spaces_head (s r : jsstring) (x : code_unit) :
  skip_spaces s = x :: r -> is_space x = false.
Proof.
  induction s as [|y s IH]; [discriminate|]. cbn [skip_spaces].
  destruct (is_space y) eqn:E; [exact IH|]. now intros [= <- _].
Qed.

Lemma trim_end_prefix (s : jsstring) :
  exists ws, s = trim_end s ++ ws /\ forallb is_space ws = true.
Proof.
  induction s as [|x s [ws [Hs Hw]]]; [now exists []|].
  cbn [trim_end]. destruct (trim_end s) as [|y r] eqn:E.
  - destruct (is_space x) eqn:Ex.
    + exists (x :: ws). cbn in Hs. subst s. split; [reflexivity|].
      cbn. now rewrite Ex.
    + exists ws. cbn in Hs. subst s. now split.
  - exists ws. split; [|exact Hw]. cbn [app]. now rewrite Hs at 1.
Qed.

(** The parts of a text that has a fenced block. *)
Lemma fenced_block_inv (t c blk : jsstring) :
  fenced_block t = Some (c, blk) ->
  exists pre tag ws inner post,
    t = pre ++ fence ++ tag ++ ws ++ inner ++ fence ++ post /\
    blk = fence ++ tag ++ ws ++ inner ++ fence /\
    c = trim_end inner /\
    (tag = [] \/ tag = xml_tag) /\
    forallb is_space ws = true /\
    split_first fence (inner ++ fence ++ post) = Some (inner, post) /\
    skip_spaces (inner ++ fence ++ post) = inner ++ fence ++ post.
Proof.
  unfold fenced_block.
  destruct (split_first fence t) as [[pre s1]|] eqn:E1; [|discriminate].
  destruct (split_first fence (skip_spaces (strip_opt xml_tag s1)))
    as [[inner post]|] eqn:E2; [|discriminate].
  intros [= <- <-].
  exists pre, (if starts_with xml_tag s1 then xml_tag else []),
    (take_spaces (strip_opt xml_tag s1)), inner, post.
  pose proof (split_first_inv _ _ _ _ E2) as E3.
  split.
  - rewrite (split_first_inv _ _ _ _ E1). do 2 f_equal.
    rewrite <- (strip_opt_suffix xml_tag s1) at 1. f_equal.
    rewrite <- (take_skip_spaces (strip_opt xml_tag s1)) at 1. now rewrite E3.
  - split; [reflexivity|]. split; [reflexivity|].
    split; [destruct (starts_with xml_tag s1); auto|].
    split; [apply take_spaces_all|].
    rewrite <- E3. split; [exact E2|apply skip_spaces_idem].
Qed.

(** X14: the candidate is always a contiguous part of the raw text: the
    extraction copies, it never adds or rewrites a character. *)
Theorem candidate_is_part_of_text (t : jsstring) :
  exists a b, t = a ++ jmx_from_text t ++ b.
Proof.
  rewrite jmx_from_text_rule. unfold extraction_rule, span_or_text.
  destruct (fenced_block t) as [[c blk]|] eqn:E.
  - destruct (fenced_block_inv t c blk E)
      as [pre [tag [ws [inner [post [Ht [Hb [Hc _]]]]]]]].
    destruct c as [|x c].
    + exists pre, post. rewrite Ht, Hb. now rewrite <- !app_assoc.
    + destruct (trim_end_prefix inner) as [ws' [Hi _]]. rewrite <- Hc in Hi.
      exists (pre ++ fence ++ tag ++ ws), (ws' ++ fence ++ post).
      rewrite Ht, Hi. now rewrite <- !app_assoc.
  - unfold prolog_span.
    destruct (split_first prolog t) as [[pre s1]|] eqn:E1;
      [|exists [], []; now rewrite app_nil_r].
    destruct (split_last closing_tag s1) as [[mid r]|] eqn:E2;
      [|exists [], []; now rewrite app_nil_r].
    exists pre, r. rewrite (split_first_inv _ _ _ _ E1), (split_last_inv _ _ _ _ E2).
    now rewrite <- !app_assoc.
Qed.

Lemma includes_split_first (sub s : jsstring) :
  includes s sub = false -> split_first sub s = None.
Proof.
  induction s as [|x s IH]; cbn [includes split_first]; unfold starts_with.
  - destruct (strip_prefix sub []); [discriminate|reflexivity].
  - destruct (strip_prefix sub (x :: s)); [discriminate|].
    cbn [orb]. intros H. now rewrite (IH H).
Qed.

(** X15: a text that contains neither a backtick fence nor an XML prolog
    is its own candidate, unchanged; in particular a bare test plan without
    prolog and without fence is taken as it is. *)
Theorem text_without_fence_or_prolog_unchanged (t : jsstring) :
  includes t fence = false ->
  includes t prolog = false ->
  jmx_from_text t = t.
Proof.
  intros Hf Hp. rewrite jmx_from_text_rule.
  unfold extraction_rule, span_or_text, fenced_block, prolog_span.
  now rewrite (includes_split_first _ _ Hf), (includes_split_first _ _ Hp).
Qed.

Lemma text_without_fence_or_prolog_unchanged_witness :
  jmx_from_text (lit "<jmeterTestPlan version=1.2> </jmeterTestPlan>")
  = lit "<jmeterTestPlan version=1.2> </jmeterTestPlan>".
Proof.
  apply text_without_fence_or_prolog_unchanged; reflexivity.
Defined.

Lemma no_marker_without_lt (s : jsstring) :
  Forall (fun x => x <> 60%N) s -> includes s root_marker = false.
Proof.
  induction 1 as [|x s Hx _ IH]; [reflexivity|].
  cbn [includes]. rewrite IH, orb_false_r. unfold starts_with.
  change root_marker with (60%N :: lit "jmeterTestPlan"). cbn [strip_prefix].
  destruct (N.eqb_spec 60 x) as [E|]; [now destruct Hx|reflexivity].
Qed.

Lemma spaces_without_lt (ws : jsstring) :
  forallb is_space ws = true -> Forall (fun x => x <> 60%N) ws.
Proof.
  induction ws as [|x ws IH]; [constructor|]. cbn [forallb].
  intros H. apply andb_true_iff in H as [Hx Hw].
  constructor; [|now apply IH]. intros ->. discriminate Hx.
Qed.

(** X16: when the first fenced block of the text is empty, the
    candidate (the block itself) never passes the validation of line 186,
    whatever follows the block: a well-formed test plan after an empty
    block is not found. *)
Theorem empty_block_hides_later_plan (pre tag ws post : jsstring) :
  includes (pre ++ lit "``") fence = false ->
  tag = [] \/ tag = xml_tag ->
  forallb is_space ws = true ->
  invalid_jmx (jmx_from_text (pre ++ fence ++ tag ++ ws ++ fence ++ post)) = true.
Proof.
  intros Hpre Htag Hws. rewrite jmx_from_text_rule. unfold extraction_rule.
  rewrite (fenced_block_empty pre tag ws post Hpre Htag Hws).
  unfold invalid_jmx. rewrite no_marker_without_lt; [now rewrite fence_eq|].
  assert (Hf : Forall (fun x => x <> 60%N) fence)
    by (rewrite fence_eq; repeat constructor; discriminate).
  assert (Ht : Forall (fun x => x <> 60%N) tag)
    by (destruct Htag as [-> | ->]; repeat constructor; discriminate).
  repeat (apply Forall_app; split); auto using spaces_without_lt.
Qed.

Lemma empty_block_hides_later_plan_witness :
  invalid_jmx
    (jmx_from_text
       ([] ++ fence ++ xml_tag ++ nl ++ fence
        ++ lit " <?xml version=1.0?><jmeterTestPlan></jmeterTestPlan>"))
  = true.
Proof.
  apply (empty_block_hides_later_plan [] xml_tag nl
           (lit " <?xml version=1.0?><jmeterTestPlan></jmeterTestPlan>")).
  - reflexivity.
  - right. reflexivity.
  - reflexivity.
Defined.

Lemma trim_end_last (s : jsstring) (d : code_unit) :
  trim_end s <> [] -> is_space (last (trim_end s) d) = false.
Proof.
  induction s as [|y s IH]; [now intros []|].
  cbn [trim_end]. destruct (trim_end s) as [|z r] eqn:E.
  - destruct (is_space y) eqn:Ey; [now intros []|]. intros _. exact Ey.
  - intros _. change (last (y :: z :: r) d) with (last (z :: r) d).
    apply IH. discriminate.
Qed.

Lemma starts_with_app (sub a b : jsstring) :
  starts_with sub a = true -> starts_with sub (a ++ b) = true.
Proof.
  unfold starts_with. destruct (strip_prefix sub a) as [r|] eqn:E; [|discriminate].
  intros _. apply strip_prefix_inv in E. subst a.
  now rewrite <- app_assoc, strip_prefix_app.
Qed.

Lemma includes_starts_with (s sub : jsstring) :
  includes s sub = false -> starts_with sub s = false.
Proof. destruct s; cbn [includes]; intros H; now apply orb_false_iff in H. Qed.

Lemma includes_app_l (a b sub : jsstring) :
  includes (a ++ b) sub = false -> includes a sub = false.
Proof.
  induction a as [|x a IH]; intros H.
  - cbn [includes]. rewrite orb_false_r.
    destruct (starts_with sub []) eqn:E; [|reflexivity].
    apply (starts_with_app sub [] b) in E. cbn [app] in *.
    apply includes_starts_with in H. congruence.
  - cbn [app includes] in *. apply orb_false_iff in H as [H1 H2].
    rewrite (IH H2), orb_false_r.
    destruct (starts_with sub (x :: a)) eqn:E; [|reflexivity].
    apply (starts_with_app sub (x :: a) b) in E. cbn [app] in E. congruence.
Qed.

Lemma split_first_clean (a s r : jsstring) :
  split_first fence (a ++ s) = Some (a, r) -> includes a fence = false.
Proof.
  revert r; induction a as [|y a IH]; intros r H; [reflexivity|].
  cbn [app split_first] in H.
  destruct (strip_prefix fence (y :: a ++ s)) eqn:E1; [discriminate|].
  destruct (split_first fence (a ++ s)) as [[b0 r0]|] eqn:E2; [|discriminate].
  injection H as -> ->. cbn [includes]. rewrite (IH r eq_refl), orb_false_r.
  destruct (starts_with fence (y :: a)) eqn:E3; [|reflexivity].
  apply (starts_with_app fence (y :: a) s) in E3. unfold starts_with in E3.
  cbn [app] in E3. now rewrite E1 in E3.
Qed.

(** X17: when the first expression matches with a non-empty capture, the
    candidate is that capture; it has no white space at either end and
    contains no fence, so it is the trimmed text between the opening fence
    (and its optional [xml] tag) and the first fence after it. *)
Theorem fenced_candidate_is_trimmed (t whole c : jsstring) (x : code_unit) :
  str_match t re_fenced = Some (MatchArray whole (Some (x :: c))) ->
  jmx_from_text t = x :: c /\
  is_space x = false /\
  is_space (last (x :: c) x) = false /\
  includes (x :: c) fence = false.
Proof.
  intros H. split.
  { unfold jmx_from_text. now rewrite H. }
  rewrite str_match_fenced_block in H.
  destruct (fenced_block t) as [[c' blk]|] eqn:E; [|discriminate].
  cbn [option_map fst snd] in H. injection H as <- ->.
  destruct (fenced_block_inv t (x :: c) blk E)
    as [pre [tag [ws [inner [post [_ [_ [Hc [_ [_ [Hsp Hsk]]]]]]]]]]].
  destruct (trim_end_prefix inner) as [ws' [Hi _]]. rewrite <- Hc in Hi.
  split; [|split].
  - rewrite Hi in Hsk. cbn [app] in Hsk. exact (skip_spaces_head _ _ _ Hsk).
  - rewrite Hc. apply trim_end_last. rewrite <- Hc. discriminate.
  - apply split_first_clean in Hsp. rewrite Hi in Hsp.
    exact (includes_app_l _ _ _ Hsp).
Qed.

Lemma fenced_candidate_is_trimmed_witness :
  jmx_from_text (lit "Plan:" ++ nl ++ good_text ++ lit " Enjoy.")
  = lit "<jmeterTestPlan version=1.2></jmeterTestPlan>" /\
  includes (lit "<jmeterTestPlan version=1.2></jmeterTestPlan>") fence = false.
Proof.
  destruct (fenced_candidate_is_trimmed
              (lit "Plan:" ++ nl ++ good_text ++ lit " Enjoy.")
              good_text
              (lit "jmeterTestPlan version=1.2></jmeterTestPlan>") 60%N eq_refl)
    as [H1 [_ [_ H4]]].
  split; [exact H1|exact H4].
Defined.
